(** * Db2 metadata manager: an executable model of [main.py] and its contract

    The program is a key/value shell over one Db2 table.  Its Python
    functions are embedded one by one over an exception-and-state monad
    [Py]; the state ([World]) holds what the program can observe or
    change: the process environment, the files on disk, the Db2 server
    (the [metadata] table and the faults it is going to report), the
    sequence of [ibm_db] driver calls issued so far, and what was
    printed.  The [ibm_db] driver and the SQL engine are not part of the
    repository; they are modelled by [Db2] (the six statements the
    program issues, with their usual SQL meaning) and [ibm_db]. *)

From Stdlib Require Import List String Ascii Bool Arith Lia NArith DecimalString.
From Stdlib Require Import Sorting.Sorted Sorting.Permutation.
Import ListNotations.
Open Scope string_scope.

(** ** Python strings

    A [str] is modelled by [string]; a character stands for a code point
    below 256, on which [isspace] and [lower] are given as Python has
    them. *)

Module PyStr.

Definition nl : string := String (ascii_of_nat 10) "".

(** [str.isspace] on one character: TAB..CR, FS..US, SPACE, NEL, NBSP. *)
Definition isspace (c : ascii) : bool :=
  let n := nat_of_ascii c in
  (((9 <=? n) && (n <=? 13)) || ((28 <=? n) && (n <=? 32))
   || (n =? 133) || (n =? 160))%nat.

(** [str.lower] on one character: A..Z and the Latin-1 capitals
    (U+00C0..U+00DE but the multiplication sign) move up by 32. *)
Definition lower_char (c : ascii) : ascii :=
  let n := nat_of_ascii c in
  if (((65 <=? n) && (n <=? 90))
      || ((192 <=? n) && (n <=? 222) && negb (n =? 215)))%nat
  then ascii_of_nat (n + 32) else c.

Fixpoint lower (s : string) : string :=
  match s with
  | EmptyString => EmptyString
  | String c s' => String (lower_char c) (lower s')
  end.

Fixpoint lstrip (s : string) : string :=
  match s with
  | EmptyString => EmptyString
  | String c s' => if isspace c then lstrip s' else s
  end.

Fixpoint rstrip (s : string) : string :=
  match s with
  | EmptyString => EmptyString
  | String c s' =>
      match rstrip s' with
      | EmptyString => if isspace c then EmptyString else String c EmptyString
      | r => String c r
      end
  end.

Definition strip (s : string) : string := rstrip (lstrip s).

(** The maximal run of non-blank characters at the head of [s], and
    what follows it. *)
Fixpoint take_word (s : string) : string * string :=
  match s with
  | EmptyString => (EmptyString, EmptyString)
  | String c s' =>
      if isspace c then (EmptyString, s)
      else let (w, rest) := take_word s' in (String c w, rest)
  end.

(** [s.split(maxsplit=n)] with no separator: blank runs separate the
    words; once [n] words were cut the remainder, without its leading
    blanks, is the last part. *)
Fixpoint split (maxsplit : nat) (s : string) : list string :=
  match lstrip s with
  | EmptyString => []
  | s0 =>
      match maxsplit with
      | 0 => [s0]
      | S m => let (w, rest) := take_word s0 in w :: split m rest
      end
  end.

(** [needle in hay] *)
Fixpoint str_in (needle hay : string) : bool :=
  prefix needle hay
  || match hay with
     | EmptyString => false
     | String _ hay' => str_in needle hay'
     end.

(** [c * n] *)
Fixpoint repeat_char (c : ascii) (n : nat) : string :=
  match n with
  | 0 => EmptyString
  | S n' => String c (repeat_char c n')
  end.

(** [f"{s:<{w}}"] *)
Definition ljust (s : string) (w : nat) : string :=
  s ++ repeat_char " "%char (w - String.length s).

(** [str(n)] for a length *)
Definition str_of_nat (n : nat) : string :=
  NilZero.string_of_uint (Nat.to_uint n).

(** [f"{x}"] of a value that may be [None] *)
Definition fmt_opt (x : option string) : string :=
  match x with Some s => s | None => "None" end.

End PyStr.

(** ** Exceptions and the [Py] monad *)

Inductive exn : Type :=
| Exception (msg : string)          (* what [ibm_db] raises *)
| FileNotFoundError (msg : string)
| TypeError (msg : string)
| KeyError (msg : string)
| EOFError
| KeyboardInterrupt                 (* not an [Exception] in Python *)
| FuelExhausted.                    (* the model of a loop ran dry; never
                                       raised by the program, see
                                       [fetch_rows_enough] *)

(** [isinstance(e, Exception)], the test behind [except Exception]. *)
Definition is_Exception (e : exn) : bool :=
  match e with
  | KeyboardInterrupt | FuelExhausted => false
  | _ => true
  end.

(** [str(e)] *)
Definition str_exn (e : exn) : string :=
  match e with
  | Exception m | FileNotFoundError m | TypeError m | KeyError m => m
  | EOFError | KeyboardInterrupt | FuelExhausted => ""
  end.

Inductive outcome (A : Type) : Type :=
| Return (a : A)
| Raise (e : exn).
Arguments Return {A} a.
Arguments Raise {A} e.

(** The SQL statements of the program, by their text in [main.py]. *)
Inductive Sql : Type :=
| CREATE_TABLE      (* CREATE TABLE IF NOT EXISTS metadata (key .., value ..) *)
| MERGE_INTO        (* MERGE INTO metadata .. USING (VALUES (?, ?)) .. *)
| SELECT_VALUE      (* SELECT value FROM metadata WHERE key = ? *)
| DELETE_FROM       (* DELETE FROM metadata WHERE key = ? *)
| SELECT_ALL        (* SELECT key, value FROM metadata ORDER BY key *)
| SELECT_LIKE.      (* SELECT key, value FROM metadata WHERE key LIKE ? ORDER BY key *)

Definition Row : Type := string * string.

(** What reaches the terminal: the text of a [print] call (the newline
    that ends it is left out) or the prompt of an [input] call. *)
Inductive Output : Type :=
| Printed (s : string)
| Prompted (s : string).

(** One entry per call into the driver. *)
Inductive Call : Type :=
| Cconnect (dsn : string)
| Cexec_immediate (q : Sql)
| Cprepare (q : Sql)
| Cbind_param (pos : nat) (v : string)
| Cexecute (q : Sql)
| Cfetch_assoc
| Cclose.

Record World : Type := mkWorld {
  environ : list (string * string);  (* os.environ *)
  files : list string;               (* paths that exist *)
  table : option (list Row);         (* rows of metadata; None: no such table *)
  strict_ddl : bool;                 (* server answers SQL0601N to CREATE on an
                                        existing table instead of skipping it *)
  faults : list (option exn);        (* what the next server round trips report:
                                        nothing, or an error *)
  calls : list Call;                 (* driver calls, oldest first *)
  stdout : list Output               (* oldest first *)
}.

Definition Py (A : Type) : Type := World -> outcome A * World.

Definition ret {A} (a : A) : Py A := fun w => (Return a, w).

Definition raise {A} (e : exn) : Py A := fun w => (Raise e, w).

Definition bind {A B} (m : Py A) (k : A -> Py B) : Py B :=
  fun w =>
    match m w with
    | (Return a, w') => k a w'
    | (Raise e, w') => (Raise e, w')
    end.

(** [try: m  except BaseException as e: h e] ; the handlers of the
    program select on the class of [e] themselves. *)
Definition try_except {A} (m : Py A) (h : exn -> Py A) : Py A :=
  fun w =>
    match m w with
    | (Return a, w') => (Return a, w')
    | (Raise e, w') => h e w'
    end.

Declare Scope py_scope.
Delimit Scope py_scope with py.
Notation "x <- m ;; k" := (bind m (fun x => k))
  (at level 61, m at next level, right associativity) : py_scope.
Notation "' pat <- m ;; k" := (bind m (fun x => match x with pat => k end))
  (at level 61, pat pattern, m at next level, right associativity) : py_scope.
Notation "m ;; k" := (bind m (fun _ => k))
  (at level 61, right associativity) : py_scope.
Open Scope py_scope.

(** *** State accessors *)

Definition set_table (t : option (list Row)) (w : World) : World :=
  mkWorld (environ w) (files w) t (strict_ddl w) (faults w) (calls w) (stdout w).

Definition set_faults (f : list (option exn)) (w : World) : World :=
  mkWorld (environ w) (files w) (table w) (strict_ddl w) f (calls w) (stdout w).

Definition add_call (c : Call) (w : World) : World :=
  mkWorld (environ w) (files w) (table w) (strict_ddl w) (faults w)
          (calls w ++ [c]) (stdout w).

Definition add_stdout (s : Output) (w : World) : World :=
  mkWorld (environ w) (files w) (table w) (strict_ddl w) (faults w)
          (calls w) (stdout w ++ [s]).

(** [print(s)] *)
Definition print (s : string) : Py unit :=
  fun w => (Return tt, add_stdout (Printed s) w).

Definition log_call (c : Call) : Py unit :=
  fun w => (Return tt, add_call c w).

(** ** The SQL engine behind the six statements *)

Module Db2.

Definition has_key (k : string) (rows : list Row) : bool :=
  existsb (fun r => fst r =? k) rows.

(** MERGE .. ON tgt.key = src.key WHEN MATCHED THEN UPDATE ..
    WHEN NOT MATCHED THEN INSERT ..  for the one source row [(k, v)]. *)
Definition merge (k v : string) (rows : list Row) : list Row :=
  if has_key k rows
  then map (fun r => if fst r =? k then (fst r, v) else r) rows
  else rows ++ [(k, v)].

(** .. WHERE key = ? *)
Definition where_key (k : string) (rows : list Row) : list Row :=
  filter (fun r => fst r =? k) rows.

(** DELETE FROM metadata WHERE key = ? *)
Definition delete (k : string) (rows : list Row) : list Row :=
  filter (fun r => negb (fst r =? k)) rows.

(** ORDER BY key: a stable insertion sort on the code-point order of
    the keys. *)
Fixpoint insert_row (r : Row) (rows : list Row) : list Row :=
  match rows with
  | [] => [r]
  | r' :: rest =>
      if (fst r <=? fst r')%string then r :: rows
      else r' :: insert_row r rest
  end.

Fixpoint order_by_key (rows : list Row) : list Row :=
  match rows with
  | [] => []
  | r :: rest => insert_row r (order_by_key rest)
  end.

(** [s LIKE p] with no ESCAPE clause: a percent sign stands for any
    run of characters, an underscore for any one character, any other
    character for itself. *)
Fixpoint like (p s : string) {struct p} : bool :=
  match p with
  | EmptyString =>
      match s with EmptyString => true | _ => false end
  | String c p' =>
      if (c =? "%")%char then
        (fix any_run (t : string) : bool :=
           like p' t
           || match t with
              | EmptyString => false
              | String _ t' => any_run t'
              end) s
      else
        match s with
        | EmptyString => false
        | String d s' =>
            ((c =? "_")%char || (c =? d)%char) && like p' s'
        end
  end.

(** .. WHERE key LIKE ? *)
Definition where_like (p : string) (rows : list Row) : list Row :=
  filter (fun r => like p (fst r)) rows.

Definition sql0601n : string :=
  "[IBM][CLI Driver][DB2/LINUXX8664] SQL0601N  The name of the object to be created is identical to the existing name 'METADATA' of type 'TABLE'.  SQLSTATE=42710 SQLCODE=-601".

Definition sql0204n : string :=
  "[IBM][CLI Driver][DB2/LINUXX8664] SQL0204N  'METADATA' is an undefined name.  SQLSTATE=42704 SQLCODE=-204".

Definition cli0100e : string :=
  "[IBM][CLI Driver] CLI0100E  Wrong number of parameters. SQLSTATE=07001".

End Db2.

(** ** The [ibm_db] driver *)

Module ibm_db.

Inductive IBM_DBConnection : Type := Handle (dsn : string).

(** A result row as [fetch_assoc] gives it: column name to value. *)
Definition dict : Type := list (string * string).

Record IBM_DBStatement : Type := mkStmt {
  sql : Sql;
  params : list (nat * string);   (* bound markers, latest first *)
  cursor : list dict              (* rows not fetched yet *)
}.

Definition param (pos : nat) (ps : list (nat * string)) : option string :=
  option_map snd (find (fun b => (fst b =? pos)%nat) ps).

(** One round trip to the server: it goes through, or the server (or
    the operator, with Ctrl-C) makes the call raise. *)
Definition round_trip : Py unit :=
  fun w =>
    match faults w with
    | [] => (Return tt, w)
    | None :: fs => (Return tt, set_faults fs w)
    | Some e :: fs => (Raise e, set_faults fs w)
    end.

Definition key_value (r : Row) : dict := [("KEY", fst r); ("VALUE", snd r)].
Definition value_only (r : Row) : dict := [("VALUE", snd r)].

(** The effect and the result set of a statement once it reached the
    server.  The widths that the create-table statement declares,
    80 characters for a key and 200 for a value, are not enforced here:
    a longer parameter is taken as it is, where the server may refuse
    it.  The properties that hold for parameters within the widths only
    say so in their hypotheses. *)
Definition run (q : Sql) (ps : list (nat * string)) : Py (list dict) :=
  fun w =>
    match q, table w with
    | CREATE_TABLE, None => (Return [], set_table (Some []) w)
    | CREATE_TABLE, Some _ =>
        if strict_ddl w then (Raise (Exception Db2.sql0601n), w)
        else (Return [], w)
    | _, None => (Raise (Exception Db2.sql0204n), w)
    | MERGE_INTO, Some rows =>
        match param 1 ps, param 2 ps with
        | Some k, Some v =>
            (Return [], set_table (Some (Db2.merge k v rows)) w)
        | _, _ => (Raise (Exception Db2.cli0100e), w)
        end
    | SELECT_VALUE, Some rows =>
        match param 1 ps with
        | Some k => (Return (map value_only (Db2.where_key k rows)), w)
        | None => (Raise (Exception Db2.cli0100e), w)
        end
    | DELETE_FROM, Some rows =>
        match param 1 ps with
        | Some k => (Return [], set_table (Some (Db2.delete k rows)) w)
        | None => (Raise (Exception Db2.cli0100e), w)
        end
    | SELECT_ALL, Some rows =>
        (Return (map key_value (Db2.order_by_key rows)), w)
    | SELECT_LIKE, Some rows =>
        match param 1 ps with
        | Some p =>
            (Return (map key_value
                       (Db2.order_by_key (Db2.where_like p rows))), w)
        | None => (Raise (Exception Db2.cli0100e), w)
        end
    end.

Definition connect (dsn user password : string) : Py IBM_DBConnection :=
  log_call (Cconnect dsn);;
  round_trip;;
  ret (Handle dsn).

Definition close (conn : IBM_DBConnection) : Py unit :=
  log_call Cclose.

Definition exec_immediate (conn : IBM_DBConnection) (q : Sql)
  : Py IBM_DBStatement :=
  log_call (Cexec_immediate q);;
  round_trip;;
  rows <- run q [];;
  ret (mkStmt q [] rows).

Definition prepare (conn : IBM_DBConnection) (q : Sql) : Py IBM_DBStatement :=
  log_call (Cprepare q);;
  ret (mkStmt q [] []).

(** [bind_param] and [execute] update the statement object; the
    updated statement is handed back. *)
Definition bind_param (stmt : IBM_DBStatement) (pos : nat) (v : string)
  : Py IBM_DBStatement :=
  log_call (Cbind_param pos v);;
  ret (mkStmt (sql stmt) ((pos, v) :: params stmt) (cursor stmt)).

Definition execute (stmt : IBM_DBStatement) : Py IBM_DBStatement :=
  log_call (Cexecute (sql stmt));;
  round_trip;;
  rows <- run (sql stmt) (params stmt);;
  ret (mkStmt (sql stmt) (params stmt) rows).

(** The next row, or [None] for the [False] that ends the result set. *)
Definition fetch_assoc (stmt : IBM_DBStatement)
  : Py (option dict * IBM_DBStatement) :=
  log_call Cfetch_assoc;;
  match cursor stmt with
  | [] => ret (None, stmt)
  | r :: rest => ret (Some r, mkStmt (sql stmt) (params stmt) rest)
  end.

End ibm_db.

Import ibm_db.

(** [row[col]] on what [fetch_assoc] returned *)
Definition getitem (row : option dict) (col : string) : Py string :=
  match row with
  | None => raise (TypeError "'bool' object is not subscriptable")
  | Some d =>
      match find (fun b => fst b =? col) d with
      | Some b => ret (snd b)
      | None => raise (KeyError col)
      end
  end.

(** [if row:] on what [fetch_assoc] returned: [False] and the empty
    dict are falsy. *)
Definition truthy (row : option dict) : bool :=
  match row with
  | None | Some [] => false
  | Some _ => true
  end.

(** ** [main.py] *)

Import PyStr.

(** *** class DatabaseConfig *)

Record DatabaseConfig : Type := mkConfig {
  host : option string;
  database : option string;
  uid : option string;
  port : option string;
  ssl_cert : option string;
  dsn : string
}.

(** [os.getenv(name)] *)
Definition getenv (name : string) : Py (option string) :=
  fun w =>
    (Return (option_map snd (find (fun b => fst b =? name) (environ w))), w).

(** [Path(p).exists()] on a file system where looking a path up either
    finds it or reports that it is not there ([files] lists the paths
    found); a lookup that fails for another reason (a name too long,
    a directory that may not be searched), where [exists] raises
    [OSError], is outside this model.  [Path(None)] is a [TypeError],
    with the text of Python 3.11. *)
Definition path_exists (p : option string) : Py bool :=
  match p with
  | None =>
      raise (TypeError
               "expected str, bytes or os.PathLike object, not NoneType")
  | Some f => fun w => (Return (existsb (String.eqb f) (files w)), w)
  end.

Definition DatabaseConfig_init : Py DatabaseConfig :=
  host <- getenv "DB2_HOST";;
  database <- getenv "DB2_DATABASE";;
  uid <- getenv "DB2_UID";;
  pwd <- getenv "DB2_PWD";;
  port <- getenv "DB2_PORT";;
  ssl_cert <- getenv "DB2_SSL_CERT";;
  found <- path_exists ssl_cert;;
  if negb found then
    raise (FileNotFoundError
             ("SSL certificate not found: " ++ fmt_opt ssl_cert))
  else
    ret (mkConfig host database uid port ssl_cert
           ("DATABASE=" ++ fmt_opt database ++ ";"
            ++ "HOSTNAME=" ++ fmt_opt host ++ ";"
            ++ "PORT=" ++ fmt_opt port ++ ";"
            ++ "PROTOCOL=TCPIP;"
            ++ "UID=" ++ fmt_opt uid ++ ";"
            ++ "PWD=" ++ fmt_opt pwd ++ ";"
            ++ "SECURITY=SSL;"
            ++ "SSLServerCertificate=" ++ fmt_opt ssl_cert ++ ";")).

Definition get_dns (self : DatabaseConfig) : string := dsn self.

Definition DatabaseConfig_print (self : DatabaseConfig) : Py unit :=
  print "Database connection settings:";;
  print ("  Host: " ++ fmt_opt (host self));;
  print ("  Port: " ++ fmt_opt (port self));;
  print ("  Database: " ++ fmt_opt (database self));;
  print ("  User: " ++ fmt_opt (uid self));;
  print ("  SSL Path: " ++ fmt_opt (ssl_cert self)).

(** *** class DB2Connections *)

Record DB2Connections : Type := mkDB2Connections {
  self_dsn : string;
  self_conn : IBM_DBConnection
}.

Definition _create_table_if_not_exists (conn : IBM_DBConnection) : Py unit :=
  try_except
    (exec_immediate conn CREATE_TABLE;;
     print ("[OK] Table 'metadata' is ready." ++ nl))
    (fun e =>
       if is_Exception e then
         if str_in "-601" (str_exn e)
         then print ("[OK] Table 'metadata' already exists." ++ nl)
         else raise e
       else raise e).

(** [__enter__]: the object with [self.conn] set is returned along with
    the connection. *)
Definition __enter__ (dsn_config : string)
  : Py (IBM_DBConnection * DB2Connections) :=
  try_except
    (print "[OK] Connecting to DB2";;
     conn <- connect dsn_config "" "";;
     print ("[OK] Connected to Db2." ++ nl);;
     _create_table_if_not_exists conn;;
     ret (conn, mkDB2Connections dsn_config conn))
    (fun e =>
       if is_Exception e then
         print ("[ERROR] Could not connect: " ++ str_exn e);;
         raise e
       else raise e).

Definition __exit__ (self : DB2Connections) : Py unit :=
  close (self_conn self);;
  print (nl ++ "[OK] Connection closed.").

(** The block of a [with] statement once [__enter__] has returned
    [conn]: [__exit__] runs when the block ends, and when the block
    raises, in which case, as [__exit__] returns [None], the exception
    goes on. *)
Definition with_body {A} (conn : IBM_DBConnection) (self : DB2Connections)
  (body : IBM_DBConnection -> Py A) : Py A :=
  fun w =>
    match body conn w with
    | (Return a, w') => (__exit__ self;; ret a) w'
    | (Raise e, w') => (__exit__ self;; raise e) w'
    end.

(** [with DB2Connections(dsn) as conn: body(conn)].  When [__enter__]
    raises, the block does not run and [__exit__] is not called. *)
Definition with_DB2Connections {A} (dsn_config : string)
  (body : IBM_DBConnection -> Py A) : Py A :=
  '(conn, self) <- __enter__ dsn_config;;
  with_body conn self body.

(** *** CRUD operations *)

Definition set_key (conn : IBM_DBConnection) (key value : string) : Py unit :=
  if (80 <? String.length key)%nat then
    print ("[ERROR] Key too long (max 80 chars): '" ++ key ++ "'")
  else if (200 <? String.length value)%nat then
    print ("[ERROR] Value too long (max 200 chars): '" ++ value ++ "'")
  else
    stmt <- prepare conn MERGE_INTO;;
    stmt <- bind_param stmt 1 key;;
    stmt <- bind_param stmt 2 value;;
    _ <- execute stmt;;
    print ("[OK] Set  '" ++ key ++ "' = '" ++ value ++ "'").

Definition get_key (conn : IBM_DBConnection) (key : string)
  : Py (option string) :=
  stmt <- prepare conn SELECT_VALUE;;
  stmt <- bind_param stmt 1 key;;
  stmt <- execute stmt;;
  '(row, _) <- fetch_assoc stmt;;
  if truthy row then v <- getitem row "VALUE";; ret (Some v)
  else ret None.

Definition delete_key (conn : IBM_DBConnection) (key : string) : Py unit :=
  stmt <- prepare conn DELETE_FROM;;
  stmt <- bind_param stmt 1 key;;
  _ <- execute stmt;;
  print ("[OK] Deleted key '" ++ key ++ "'").

(** [while row: rows.append((row["KEY"], row["VALUE"]));
               row = ibm_db.fetch_assoc(stmt)]
    with [fuel] bounding the number of rounds. *)
Fixpoint fetch_rows (fuel : nat) (stmt : IBM_DBStatement) (row : option dict)
  (rows : list (string * string)) : Py (list (string * string)) :=
  if truthy row then
    match fuel with
    | 0 => raise FuelExhausted
    | S fuel' =>
        k <- getitem row "KEY";;
        v <- getitem row "VALUE";;
        '(row', stmt') <- fetch_assoc stmt;;
        fetch_rows fuel' stmt' row' (rows ++ [(k, v)])
    end
  else ret rows.

Definition list_all (conn : IBM_DBConnection) : Py (list (string * string)) :=
  stmt <- exec_immediate conn SELECT_ALL;;
  '(row, stmt) <- fetch_assoc stmt;;
  fetch_rows (S (List.length (cursor stmt))) stmt row [].

Definition search_keys (conn : IBM_DBConnection) (pattern : string)
  : Py (list (string * string)) :=
  stmt <- prepare conn SELECT_LIKE;;
  stmt <- bind_param stmt 1 pattern;;
  stmt <- execute stmt;;
  '(row, stmt) <- fetch_assoc stmt;;
  fetch_rows (S (List.length (cursor stmt))) stmt row [].

(** *** Display helpers *)

Fixpoint for_each {A} (l : list A) (body : A -> Py unit) : Py unit :=
  match l with
  | [] => ret tt
  | x :: l' => body x;; for_each l' body
  end.

(** [max(f(r) for r in rows)] on a list that is not empty *)
Definition max_of (f : string * string -> nat) (rows : list (string * string))
  : nat :=
  fold_right Nat.max 0 (map f rows).

Definition print_table (rows : list (string * string)) : Py unit :=
  match rows with
  | [] => print "  (no records found)"
  | _ =>
      let key_w := Nat.max (max_of (fun r => String.length (fst r)) rows) 4 in
      let val_w := Nat.max (max_of (fun r => String.length (snd r)) rows) 5 in
      let sep := "  +" ++ repeat_char "-" (key_w + 2)
                 ++ "+" ++ repeat_char "-" (val_w + 2) ++ "+" in
      print sep;;
      print ("  | " ++ ljust "KEY" key_w ++ " | " ++ ljust "VALUE" val_w ++ " |");;
      print sep;;
      for_each rows
        (fun r =>
           print ("  | " ++ ljust (fst r) key_w ++ " | "
                  ++ ljust (snd r) val_w ++ " |"));;
      print sep;;
      print ("  " ++ str_of_nat (List.length rows) ++ " row(s)" ++ nl)
  end.

Definition print_help : Py unit :=
  print (nl ++ "Commands:" ++ nl
         ++ "  set  <key> <value>   Insert or update a key/value pair" ++ nl
         ++ "  get  <key>           Retrieve value for a key" ++ nl
         ++ "  del  <key>           Delete a key" ++ nl
         ++ "  list                 List all key/value pairs" ++ nl
         ++ "  find <pattern>       Search keys by LIKE pattern (e.g.  app.%)" ++ nl
         ++ "  help                 Show this help" ++ nl
         ++ "  exit                 Quit" ++ nl).

(** *** The command loop *)

(** What the operator does at a prompt: a line followed by Enter, or
    Ctrl-C.  The end of the list is the end of input. *)
Inductive Tty : Type :=
| Line (s : string)
| CtrlC.

(** [input(prompt)] when the operator's next move is [ev]. *)
Definition input (prompt : string) (ev : option Tty) : Py string :=
  fun w =>
    let w' := add_stdout (Prompted prompt) w in
    match ev with
    | Some (Line s) => (Return s, w')
    | Some CtrlC => (Raise KeyboardInterrupt, w')
    | None => (Raise EOFError, w')
    end.

(** How one round of the loop ends: [break], or on to the next round
    ([continue] and the end of the body alike). *)
Inductive Flow : Type := Break | Next.

(** The [match cmd:] statement. *)
Definition dispatch (conn : IBM_DBConnection) (parts : list string) : Py Flow :=
  let cmd := lower (nth 0 parts "") in
  if (cmd =? "exit") || (cmd =? "quit") || (cmd =? "q") then ret Break
  else if cmd =? "help" then print_help;; ret Next
  else if cmd =? "set" then
    if (List.length parts <? 3)%nat then
      print "[ERROR] Usage: set <key> <value>";; ret Next
    else set_key conn (nth 1 parts "") (nth 2 parts "");; ret Next
  else if cmd =? "get" then
    if (List.length parts <? 2)%nat then
      print "[ERROR] Usage: get <key>";; ret Next
    else
      val <- get_key conn (nth 1 parts "");;
      match val with
      | None => print ("  (key '" ++ nth 1 parts "" ++ "' not found)");; ret Next
      | Some v => print ("  " ++ nth 1 parts "" ++ " = " ++ v);; ret Next
      end
  else if cmd =? "del" then
    if (List.length parts <? 2)%nat then
      print "[ERROR] Usage: del <key>";; ret Next
    else delete_key conn (nth 1 parts "");; ret Next
  else if cmd =? "list" then
    rows <- list_all conn;; print_table rows;; ret Next
  else if cmd =? "find" then
    if (List.length parts <? 2)%nat then
      print "[ERROR] Usage: find <pattern>  e.g.  find app.%";; ret Next
    else rows <- search_keys conn (nth 1 parts "");; print_table rows;; ret Next
  else print ("[ERROR] Unknown command '" ++ cmd ++ "'. Type 'help'.");; ret Next.

(** One round of [while True:]. *)
Definition repl_round (conn : IBM_DBConnection) (ev : option Tty) : Py Flow :=
  got <- try_except
           (line <- input "db2-meta> " ev;; ret (Some (strip line)))
           (fun e =>
              match e with
              | EOFError | KeyboardInterrupt => ret None
              | _ => raise e
              end);;
  match got with
  | None => ret Break
  | Some line =>
      if line =? "" then ret Next
      else dispatch conn (split 2 line)
  end.

(** The loop, over what the operator is going to type. *)
Fixpoint repl_loop (conn : IBM_DBConnection) (tty : list Tty) : Py unit :=
  match tty with
  | [] => _ <- repl_round conn None;; ret tt
  | ev :: rest =>
      flow <- repl_round conn (Some ev);;
      match flow with
      | Break => ret tt
      | Next => repl_loop conn rest
      end
  end.

Definition repl (conn : IBM_DBConnection) (tty : list Tty) : Py unit :=
  print ("Db2 Metadata Manager  |  type 'help' for commands" ++ nl);;
  repl_loop conn tty.

Definition main (tty : list Tty) : Py unit :=
  config <- DatabaseConfig_init;;
  DatabaseConfig_print config;;
  with_DB2Connections (get_dns config) (fun conn => repl conn tty).

(** * Vocabulary of the contract *)

(** [<=] on keys, as a proposition, and rows in ascending key order. *)
Definition key_le (s t : string) : Prop := (s <=? t)%string = true.

Definition row_le (r r' : Row) : Prop := key_le (fst r) (fst r').

(** The pattern language as the contract words it: a percent sign
    matches any run of characters, an underscore any single character,
    and every other character matches itself. *)
Inductive LikeSpec : string -> string -> Prop :=
| like_end : LikeSpec "" ""
| like_any_run (p run s : string) :
    LikeSpec p s -> LikeSpec (String "%" p) (run ++ s)
| like_any_one (p : string) (c : ascii) (s : string) :
    LikeSpec p s -> LikeSpec (String "_" p) (String c s)
| like_same (c : ascii) (p s : string) :
    c <> "%"%char -> LikeSpec p s -> LikeSpec (String c p) (String c s).

(** The keys of a table. *)
Definition keys (rows : list Row) : list string := map fst rows.

(** At most one record per key. *)
Definition unique_keys (w : World) : Prop :=
  match table w with
  | Some rows => NoDup (keys rows)
  | None => True
  end.

(** The number of rows stored under [k]. *)
Definition rows_for (k : string) (rows : list Row) : nat :=
  List.length (Db2.where_key k rows).

(** The table exists with rows [rows] and the server is not about to
    report any fault. *)
Definition serving (w : World) (rows : list Row) : Prop :=
  table w = Some rows /\ faults w = [].

(** The world after the driver calls [cs]. *)
Definition after (cs : list Call) (w : World) : World :=
  mkWorld (environ w) (files w) (table w) (strict_ddl w) (faults w)
          (calls w ++ cs) (stdout w).

(** How many times the connection was closed. *)
Definition closes (w : World) : nat :=
  List.length (filter (fun c => match c with Cclose => true | _ => false end)
                 (calls w)).

(** [m] takes every world to one related to it by [R], whether it
    returns or raises. *)
Definition respects (R : World -> World -> Prop) {A} (m : Py A) : Prop :=
  forall w, R w (snd (m w)).

(** The invariant of the table is not broken. *)
Definition keeps_unique_keys (w w' : World) : Prop :=
  unique_keys w -> unique_keys w'.

(** The connection is not closed. *)
Definition keeps_closes (w w' : World) : Prop := closes w' = closes w.

(** A process environment with the six settings, the certificate on
    disk, and a server that has no table yet and is going to report
    [faults]. *)
Definition sample_environ : list (string * string) :=
  [("DB2_HOST", "db2.example.net"); ("DB2_DATABASE", "BLUDB");
   ("DB2_UID", "meta"); ("DB2_PWD", "secret"); ("DB2_PORT", "50001");
   ("DB2_SSL_CERT", "/etc/ssl/db2.crt")].

Definition sample_dsn : string :=
  "DATABASE=BLUDB;HOSTNAME=db2.example.net;PORT=50001;PROTOCOL=TCPIP;UID=meta;PWD=secret;SECURITY=SSL;SSLServerCertificate=/etc/ssl/db2.crt;".

Definition sample_world (strict : bool) (faults : list (option exn)) : World :=
  mkWorld sample_environ ["/etc/ssl/db2.crt"] None strict faults [] [].

(** A server with rows [rows] already in the table. *)
Definition stocked_world (rows : list Row) (faults : list (option exn))
  : World :=
  mkWorld sample_environ ["/etc/ssl/db2.crt"] (Some rows) false faults [] [].

Definition sql0551n : string :=
  "[IBM][CLI Driver][DB2/LINUXX8664] SQL0551N  The statement failed because the authorization ID does not have the required authorization or privilege to perform the operation.  SQLSTATE=42501 SQLCODE=-551".

Definition sql0911n : string :=
  "[IBM][CLI Driver][DB2/LINUXX8664] SQL0911N  The current transaction has been rolled back because of a deadlock or timeout.  SQLSTATE=40001 SQLCODE=-911".

(** The dispatcher catches a failure of the statement behind the
    command [line]: it prints a line for it and goes on with the
    commands that follow. *)
Definition resumes_after_query_error (conn : IBM_DBConnection)
  (line : string) (rest : list Tty) (w : World) : Prop :=
  forall msg w',
    repl_round conn (Some (Line line)) w = (Raise (Exception msg), w') ->
    exists diagnostic,
      repl_loop conn (Line line :: rest) w
      = repl_loop conn rest (add_stdout (Printed diagnostic) w').

(** The test that [_create_table_if_not_exists] itself makes on what
    the create-table statement raised: an [Exception] with the four
    characters -601 anywhere in its text.  The text of SQL0601N has
    them, and so may the text of another error; [is_sql0601n] is the
    error that the contract means. *)
Definition reports_already_exists (e : exn) : bool :=
  is_Exception e && PyStr.str_in "-601" (str_exn e).

(** Rows in strictly ascending key order. *)
Definition row_lt (r r' : Row) : Prop := (fst r <? fst r')%string = true.

(** A pattern without the two wildcard characters. *)
Definition plain (p : string) : Prop :=
  forall c, In c (list_ascii_of_string p) -> c <> "%"%char /\ c <> "_"%char.

(** The table and the output are as before. *)
Definition reads_only (w w' : World) : Prop :=
  table w' = table w /\ stdout w' = stdout w.

(** The world after the outputs [outs]. *)
Definition printing (outs : list Output) (w : World) : World :=
  mkWorld (environ w) (files w) (table w) (strict_ddl w) (faults w)
          (calls w) (stdout w ++ outs).

(** A string with no whitespace character in it. *)
Definition solid (s : string) : Prop :=
  forall c, In c (list_ascii_of_string s) -> PyStr.isspace c = false.

(** A string made of whitespace characters only. *)
Definition blank (s : string) : Prop :=
  forall c, In c (list_ascii_of_string s) -> PyStr.isspace c = true.

(** The world with DB2_PWD set to [pwd]. *)
Definition with_password (pwd : string) (w : World) : World :=
  mkWorld (("DB2_PWD", pwd) :: environ w) (files w) (table w) (strict_ddl w)
          (faults w) (calls w) (stdout w).

(** The prompt of the command loop. *)
Definition prompt : Output := Prompted "db2-meta> ".

(** [s] ends with [suffix]. *)
Fixpoint ends_with (suffix s : string) : bool :=
  (s =? suffix)
  || match s with
     | EmptyString => false
     | String _ s' => ends_with suffix s'
     end.

(** The backend's table-already-exists error, as the contract means it:
    the driver's exception for SQL0601N, whose text closes with that
    SQL code. *)
Definition is_sql0601n (e : exn) : bool :=
  match e with
  | Exception msg => ends_with "SQLCODE=-601" msg
  | _ => false
  end.

(** An authorization failure, with the authorization ID in its text. *)
Definition sql0551n_ibmid : string :=
  "[IBM][CLI Driver][DB2/LINUXX8664] SQL0551N  The statement failed because the authorization ID 'IBMID-601000ABCD' does not have the required authorization or privilege to perform the operation.  SQLSTATE=42501 SQLCODE=-551".

(** Every failure of the create-table statement other than the
    table-already-exists error ends the [with] statement with that
    failure, whatever its body is. *)
Definition other_bootstrap_failures_are_fatal (dsn_config : string)
  (w : World) : Prop :=
  forall conn w1 w2 e,
    connect dsn_config "" ""
      (add_stdout (Printed "[OK] Connecting to DB2") w) = (Return conn, w1) ->
    exec_immediate conn CREATE_TABLE
      (add_stdout (Printed ("[OK] Connected to Db2." ++ PyStr.nl)) w1)
    = (Raise e, w2) ->
    is_sql0601n e = false ->
    forall body : IBM_DBConnection -> Py unit,
    exists w3, with_DB2Connections dsn_config body w = (Raise e, w3).

(** The parts of a command line that makes [dispatch] send a statement
    to the server: a set with a key and a value within the bounds, a
    get, del or find with an argument, or a list. *)
Definition runs_statement (parts : list string) : Prop :=
  match parts with
  | [] => False
  | word :: args =>
      (PyStr.lower word = "set"
       /\ exists k v more,
           args = k :: v :: more
           /\ String.length k <= 80 /\ String.length v <= 200)
      \/ (In (PyStr.lower word) ["get"; "del"; "find"] /\ args <> [])
      \/ PyStr.lower word = "list"
  end.

(** What the operator does fits the columns: the first argument of a
    typed line, a key or a pattern, has at most 80 characters. *)
Definition within_widths (ev : Tty) : Prop :=
  match ev with
  | Line l =>
      String.length (nth 1 (PyStr.split 2 (PyStr.strip l)) "") <= 80
  | CtrlC => True
  end.

(** * Properties *)

(** ** The order of keys *)

Section KeyOrder.

Local Open Scope string_scope.

Lemma ascii_compare_refl (a : ascii) : Ascii.compare a a = Eq.
Proof. unfold Ascii.compare. apply N.compare_refl. Qed.

Lemma ascii_compare_trans_lt (a b c : ascii) :
  Ascii.compare a b = Lt -> Ascii.compare b c = Lt -> Ascii.compare a c = Lt.
Proof.
  unfold Ascii.compare. rewrite !N.compare_lt_iff. lia.
Qed.

Lemma string_compare_refl (s : string) : String.compare s s = Eq.
Proof.
  induction s as [|a s IH]; simpl; [reflexivity|].
  now rewrite ascii_compare_refl.
Qed.

Lemma key_le_refl (s : string) : key_le s s.
Proof. unfold key_le, String.leb. now rewrite string_compare_refl. Qed.

Lemma key_le_total (s t : string) : (s <=? t) = false -> key_le t s.
Proof.
  unfold key_le. intros H.
  destruct (String.leb_total s t) as [H'|H']; congruence.
Qed.

Lemma string_compare_not_gt_trans (s t u : string) :
  String.compare s t <> Gt -> String.compare t u <> Gt ->
  String.compare s u <> Gt.
Proof.
  revert t u.
  induction s as [|a s IH]; intros [|b t] [|c u]; simpl;
    try congruence.
  destruct (Ascii.compare a b) eqn:Eab; try congruence;
    destruct (Ascii.compare b c) eqn:Ebc; try congruence.
  - apply Ascii.compare_eq_iff in Eab, Ebc. subst.
    rewrite ascii_compare_refl. apply IH.
  - apply Ascii.compare_eq_iff in Eab. subst. now rewrite Ebc.
  - apply Ascii.compare_eq_iff in Ebc. subst. now rewrite Eab.
  - now rewrite (ascii_compare_trans_lt a b c).
Qed.

Lemma key_le_trans (s t u : string) : key_le s t -> key_le t u -> key_le s u.
Proof.
  unfold key_le, String.leb. intros H1 H2.
  pose proof (string_compare_not_gt_trans s t u) as H.
  destruct (String.compare s t); try discriminate;
    destruct (String.compare t u); try discriminate;
    destruct (String.compare s u); try reflexivity;
    exfalso; apply H; congruence.
Qed.

End KeyOrder.

(** ** Facts about the SQL engine *)

Module Db2Facts.

Import Db2.

(** *** ORDER BY *)

Lemma insert_row_first (r : Row) (rows : list Row) :
  Forall (row_le r) rows -> insert_row r rows = r :: rows.
Proof.
  intros H. destruct H as [|r' rest Hr' _]; simpl; [reflexivity|].
  unfold row_le, key_le in Hr'. now rewrite Hr'.
Qed.

Lemma insert_row_In (r x : Row) (rows : list Row) :
  In x (insert_row r rows) <-> x = r \/ In x rows.
Proof.
  induction rows as [|r' rest IH]; simpl.
  - intuition auto.
  - destruct (fst r <=? fst r')%string; simpl; rewrite ?IH; intuition auto.
Qed.

Lemma insert_row_sorted (r : Row) (rows : list Row) :
  StronglySorted row_le rows -> StronglySorted row_le (insert_row r rows).
Proof.
  induction 1 as [|r' rest Hs IH Hall]; simpl.
  - repeat constructor.
  - destruct (fst r <=? fst r')%string eqn:E.
    + constructor; [now constructor|].
      constructor; [exact E|].
      eapply Forall_impl; [|exact Hall].
      intros y Hy. eapply key_le_trans; [exact E|exact Hy].
    + constructor; [exact IH|].
      apply Forall_forall. intros y Hy.
      apply insert_row_In in Hy. destruct Hy as [->|Hy].
      * now apply key_le_total.
      * rewrite Forall_forall in Hall. now apply Hall.
Qed.

Lemma order_by_key_sorted (rows : list Row) :
  StronglySorted row_le (order_by_key rows).
Proof.
  induction rows as [|r rest IH]; simpl.
  - constructor.
  - now apply insert_row_sorted.
Qed.

Lemma order_by_key_In (x : Row) (rows : list Row) :
  In x (order_by_key rows) <-> In x rows.
Proof.
  induction rows as [|r rest IH]; simpl; [tauto|].
  rewrite insert_row_In, IH. intuition auto.
Qed.

Lemma insert_row_length (r : Row) (rows : list Row) :
  List.length (insert_row r rows) = S (List.length rows).
Proof.
  induction rows as [|r' rest IH]; simpl; [reflexivity|].
  destruct (fst r <=? fst r')%string; simpl; now rewrite ?IH.
Qed.

Lemma order_by_key_length (rows : list Row) :
  List.length (order_by_key rows) = List.length rows.
Proof.
  induction rows as [|r rest IH]; simpl; [reflexivity|].
  now rewrite insert_row_length, IH.
Qed.

(** A filter can be applied before or after the sort. *)
Lemma filter_insert_row (p : Row -> bool) (r : Row) (rows : list Row) :
  StronglySorted row_le rows ->
  filter p (insert_row r rows)
  = if p r then insert_row r (filter p rows) else filter p rows.
Proof.
  induction 1 as [|r' rest Hs IH Hall]; simpl.
  - now destruct (p r).
  - destruct (fst r <=? fst r')%string eqn:E; simpl.
    + destruct (p r) eqn:Er; [|reflexivity].
      destruct (p r') eqn:Er'; simpl.
      * now rewrite E.
      * rewrite insert_row_first; [reflexivity|].
        apply Forall_forall. intros y Hy.
        apply filter_In in Hy. destruct Hy as [Hy _].
        rewrite Forall_forall in Hall.
        eapply key_le_trans; [exact E|now apply Hall].
    + rewrite IH.
      destruct (p r'), (p r); simpl; now rewrite ?E.
Qed.

Lemma filter_order_by_key (p : Row -> bool) (rows : list Row) :
  filter p (order_by_key rows) = order_by_key (filter p rows).
Proof.
  induction rows as [|r rest IH]; simpl; [reflexivity|].
  rewrite filter_insert_row by apply order_by_key_sorted.
  rewrite IH. now destruct (p r).
Qed.

End Db2Facts.

(** ** Facts about LIKE, MERGE, DELETE and WHERE *)

Module SqlFacts.

Import Db2.

Lemma like_percent_cons (p : string) (c : ascii) (s : string) :
  like (String "%" p) (String c s)
  = like p (String c s) || like (String "%" p) s.
Proof. reflexivity. Qed.

Lemma like_percent_nil (p : string) :
  like (String "%" p) "" = like p "".
Proof. simpl. now rewrite orb_false_r. Qed.

Lemma like_percent_skip (p run s : string) :
  like p s = true -> like (String "%" p) (run ++ s) = true.
Proof.
  intros H. induction run as [|c run IH].
  - simpl (_ ++ _)%string. destruct s as [|d s].
    + now rewrite like_percent_nil.
    + rewrite like_percent_cons, H. reflexivity.
  - simpl (_ ++ _)%string. rewrite like_percent_cons, IH.
    apply orb_true_r.
Qed.

Lemma like_percent_split (p s : string) :
  like (String "%" p) s = true ->
  exists run t, s = (run ++ t)%string /\ like p t = true.
Proof.
  induction s as [|c s IH]; intros H.
  - rewrite like_percent_nil in H. now exists ""%string, ""%string.
  - rewrite like_percent_cons in H. apply orb_true_iff in H.
    destruct H as [H|H].
    + now exists ""%string, (String c s).
    + destruct (IH H) as (run & t & -> & Ht).
      now exists (String c run), t.
Qed.

Lemma like_other (c : ascii) (p : string) (s : string) :
  c <> "%"%char ->
  like (String c p) s
  = match s with
    | EmptyString => false
    | String d s' => ((c =? "_")%char || (c =? d)%char) && like p s'
    end.
Proof.
  intros Hc. simpl. apply Ascii.eqb_neq in Hc. now rewrite Hc.
Qed.

(** The engine's matcher is the pattern language of the contract. *)
Lemma like_iff_spec (p s : string) : like p s = true <-> LikeSpec p s.
Proof.
  split.
  - revert s. induction p as [|c p IH]; intros s H.
    + destruct s; [constructor|discriminate].
    + destruct (Ascii.eqb_spec c "%") as [->|Hc].
      * apply like_percent_split in H. destruct H as (run & t & -> & Ht).
        constructor. now apply IH.
      * rewrite like_other in H by assumption.
        destruct s as [|d s]; [discriminate|].
        apply andb_true_iff in H. destruct H as [Hcd Hp].
        apply orb_true_iff in Hcd. destruct Hcd as [Hu|Hd].
        -- apply Ascii.eqb_eq in Hu. subst c. constructor. now apply IH.
        -- apply Ascii.eqb_eq in Hd. subst d. constructor; auto.
  - induction 1 as [|p run s _ IH|p c s _ IH|c p s Hc _ IH].
    + reflexivity.
    + now apply like_percent_skip.
    + rewrite like_other by discriminate. simpl. exact IH.
    + rewrite like_other by assumption.
      now rewrite Ascii.eqb_refl, orb_true_r, IH.
Qed.

Lemma like_percent_anything (s : string) : like "%" s = true.
Proof.
  induction s as [|c s IH].
  - reflexivity.
  - rewrite like_percent_cons, IH. apply orb_true_r.
Qed.

(** A pattern made of plain characters and a final percent sign
    selects the strings that start with these characters. *)
Lemma like_literal_percent (lit s : string) :
  (forall c, In c (list_ascii_of_string lit) ->
             c <> "%"%char /\ c <> "_"%char) ->
  like (lit ++ "%") s = prefix lit s.
Proof.
  revert s. induction lit as [|c lit IH]; intros s Hlit.
  - simpl (_ ++ _)%string. rewrite like_percent_anything.
    now destruct s.
  - simpl (_ ++ _)%string.
    destruct (Hlit c (or_introl eq_refl)) as [Hp Hu].
    rewrite like_other by assumption.
    destruct s as [|d s]; [reflexivity|].
    apply Ascii.eqb_neq in Hu. rewrite Hu. simpl.
    destruct (ascii_dec c d) as [->|Hcd].
    + rewrite Ascii.eqb_refl. simpl. apply IH.
      intros c' Hc'. apply Hlit. now right.
    + apply Ascii.eqb_neq in Hcd. now rewrite Hcd.
Qed.

(** *** WHERE key = ?, MERGE and DELETE *)

Lemma has_key_In (k : string) (rows : list Row) :
  has_key k rows = true <-> In k (keys rows).
Proof.
  unfold has_key, keys. rewrite existsb_exists, in_map_iff.
  split; intros (r & H1 & H2).
  - exists r. apply String.eqb_eq in H2. auto.
  - exists r. subst k. now rewrite String.eqb_refl.
Qed.

Lemma where_key_absent (k : string) (rows : list Row) :
  ~ In k (keys rows) -> where_key k rows = [].
Proof.
  induction rows as [|r rest IH]; simpl; intros H; [reflexivity|].
  destruct (String.eqb_spec (fst r) k) as [E|E].
  - exfalso. apply H. now left.
  - apply IH. intros Hin. apply H. now right.
Qed.

Lemma keys_merge_present (k v : string) (rows : list Row) :
  keys (map (fun r : Row => if fst r =? k then (fst r, v) else r) rows)
  = keys rows.
Proof.
  unfold keys. rewrite map_map. apply map_ext.
  intros r. now destruct (fst r =? k).
Qed.

Lemma where_key_app (k : string) (rows rows' : list Row) :
  where_key k (rows ++ rows')%list
  = (where_key k rows ++ where_key k rows')%list.
Proof. apply filter_app. Qed.

(** After the merge every row under [k] holds [v], and there is one. *)
Lemma where_key_merge (k v : string) (rows : list Row) :
  where_key k (merge k v rows)
  = (k, v) :: repeat (k, v) (pred (rows_for k rows)).
Proof.
  unfold merge, rows_for. destruct (has_key k rows) eqn:E.
  - induction rows as [|r rest IH]; [discriminate|].
    simpl in E. simpl.
    destruct (String.eqb_spec (fst r) k) as [Ek|Ek]; simpl.
    + rewrite Ek, String.eqb_refl. f_equal.
      destruct (has_key k rest) eqn:E'.
      * rewrite (IH eq_refl).
        destruct (where_key k rest) eqn:Ew; [|reflexivity].
        exfalso. apply has_key_In in E'.
        unfold has_key in E. clear -Ew E'.
        unfold keys in E'. apply in_map_iff in E'.
        destruct E' as (r' & <- & Hin).
        assert (In r' (where_key (fst r') rest)) as H.
        { apply filter_In. split; [assumption|apply String.eqb_refl]. }
        now rewrite Ew in H.
      * assert (~ In k (keys rest)) as Hn.
        { rewrite <- has_key_In. congruence. }
        rewrite (where_key_absent k rest Hn). simpl.
        clear -Hn. induction rest as [|r' rest IH]; [reflexivity|].
        simpl. destruct (String.eqb_spec (fst r') k) as [E|E].
        -- exfalso. apply Hn. now left.
        -- simpl. apply String.eqb_neq in E. rewrite E.
           apply IH. intros H. apply Hn. now right.
    + apply String.eqb_neq in Ek. rewrite Ek. apply IH.
      simpl in E. exact E.
  - assert (~ In k (keys rows)) as Hn.
    { rewrite <- has_key_In. congruence. }
    rewrite where_key_app, (where_key_absent k rows Hn). simpl.
    now rewrite String.eqb_refl.
Qed.

Lemma merge_unique (k v : string) (rows : list Row) :
  NoDup (keys rows) -> NoDup (keys (merge k v rows)).
Proof.
  intros H. unfold merge. destruct (has_key k rows) eqn:E.
  - now rewrite keys_merge_present.
  - assert (~ In k (keys rows)) as Hn.
    { rewrite <- has_key_In. congruence. }
    unfold keys in *. rewrite map_app. simpl.
    apply NoDup_app; [assumption|repeat constructor; simpl; tauto|].
    intros a Ha [<-|[]]. now apply Hn.
Qed.

Lemma delete_absent (k : string) (rows : list Row) :
  ~ In k (keys rows) -> delete k rows = rows.
Proof.
  induction rows as [|r rest IH]; simpl; intros H; [reflexivity|].
  destruct (String.eqb_spec (fst r) k) as [E|E]; simpl.
  - exfalso. apply H. now left.
  - fold (delete k rest). rewrite IH; [reflexivity|].
    intros Hin. apply H. now right.
Qed.

Lemma keys_delete (k : string) (rows : list Row) :
  ~ In k (keys (delete k rows)).
Proof.
  unfold keys, delete. rewrite in_map_iff.
  intros (r & <- & Hin). apply filter_In in Hin.
  destruct Hin as [_ Hin]. now rewrite String.eqb_refl in Hin.
Qed.

Lemma NoDup_keys_filter (p : Row -> bool) (rows : list Row) :
  NoDup (keys rows) -> NoDup (keys (filter p rows)).
Proof.
  induction rows as [|r rest IH]; simpl; intros H; [constructor|].
  inversion H as [|x l Hnotin Hrest]; subst.
  destruct (p r); simpl; [|now apply IH].
  constructor; [|now apply IH].
  intros Hin. apply Hnotin. unfold keys in *.
  apply in_map_iff in Hin. destruct Hin as (r' & E & Hin).
  apply filter_In in Hin. apply in_map_iff. exists r'. tauto.
Qed.

Lemma delete_unique (k : string) (rows : list Row) :
  NoDup (keys rows) -> NoDup (keys (delete k rows)).
Proof. apply NoDup_keys_filter. Qed.

Lemma rows_for_unique (k : string) (rows : list Row) :
  NoDup (keys rows) -> rows_for k rows <= 1.
Proof.
  unfold rows_for. induction rows as [|r rest IH]; simpl; intros H; [lia|].
  inversion H as [|x l Hnotin Hrest]; subst.
  destruct (String.eqb_spec (fst r) k) as [E|E]; simpl.
  - subst k. rewrite (where_key_absent (fst r) rest Hnotin). simpl. lia.
  - now apply IH.
Qed.

End SqlFacts.

(** ** The store operations on a serving backend

    Each lemma gives the result and the world an operation leaves when
    the table exists and no fault is pending. *)

Section Serving.

Variable conn : IBM_DBConnection.

Ltac start w :=
  destruct w as [env fl tb sd fs cs out];
  unfold serving; simpl; intros [-> ->].

Ltac finish :=
  cbn;
  unfold print, log_call, add_stdout, set_table, set_faults, after, add_call;
  cbn; rewrite <- ?app_assoc; reflexivity.

Lemma serving_after (cs : list Call) (w : World) (rows : list Row) :
  serving w rows -> serving (after cs w) rows.
Proof. now unfold serving. Qed.

Lemma serving_add_stdout (o : Output) (w : World) (rows : list Row) :
  serving w rows -> serving (add_stdout o w) rows.
Proof. now unfold serving. Qed.

Lemma serving_set_table (w : World) (rows rows' : list Row) :
  serving w rows -> serving (set_table (Some rows') w) rows'.
Proof. unfold serving. simpl. tauto. Qed.

Lemma set_key_serving (key value : string) (w : World) (rows : list Row) :
  serving w rows ->
  String.length key <= 80 -> String.length value <= 200 ->
  set_key conn key value w
  = (Return tt,
     add_stdout (Printed ("[OK] Set  '" ++ key ++ "' = '" ++ value ++ "'"))
       (set_table (Some (Db2.merge key value rows))
          (after [Cprepare MERGE_INTO; Cbind_param 1 key;
                  Cbind_param 2 value; Cexecute MERGE_INTO] w))).
Proof.
  start w. intros Hk Hv. unfold set_key.
  apply Nat.ltb_ge in Hk, Hv. rewrite Hk, Hv. finish.
Qed.

Lemma get_key_serving (key : string) (w : World) (rows : list Row) :
  serving w rows ->
  get_key conn key w
  = (Return (option_map snd (hd_error (Db2.where_key key rows))),
     after [Cprepare SELECT_VALUE; Cbind_param 1 key;
            Cexecute SELECT_VALUE; Cfetch_assoc] w).
Proof.
  start w. unfold get_key, bind, prepare, bind_param, execute, fetch_assoc.
  cbn. destruct (Db2.where_key key rows) as [|[k v] rest]; finish.
Qed.

Lemma delete_key_serving (key : string) (w : World) (rows : list Row) :
  serving w rows ->
  delete_key conn key w
  = (Return tt,
     add_stdout (Printed ("[OK] Deleted key '" ++ key ++ "'"))
       (set_table (Some (Db2.delete key rows))
          (after [Cprepare DELETE_FROM; Cbind_param 1 key;
                  Cexecute DELETE_FROM] w))).
Proof. start w. finish. Qed.

Lemma fetch_rows_end (fuel : nat) (stmt : IBM_DBStatement)
  (acc : list (string * string)) (w : World) :
  fetch_rows fuel stmt None acc w = (Return acc, w).
Proof. now destruct fuel. Qed.

(** The fetch loop with enough fuel returns every row of the result
    set, after one more fetch than there are rows left. *)
Lemma fetch_rows_enough (rest : list Row) :
  forall (fuel : nat) (q : Sql) (ps : list (nat * string)) (r : Row)
         (acc : list (string * string)) (w : World),
    List.length rest < fuel ->
    fetch_rows fuel (mkStmt q ps (map key_value rest))
      (Some (key_value r)) acc w
    = (Return (acc ++ r :: rest)%list,
       after (repeat Cfetch_assoc (S (List.length rest))) w).
Proof.
  induction rest as [|r' rest IH]; intros fuel q ps [k v] acc w Hfuel;
    (destruct fuel as [|fuel]; [simpl in Hfuel; lia|]).
  - destruct w. cbn. unfold log_call, add_call, after. cbn.
    now rewrite fetch_rows_end.
  - simpl in Hfuel.
    assert (List.length rest < fuel) as Hlt by lia.
    specialize (IH fuel q ps r' (acc ++ [(k, v)])%list
                  (after [Cfetch_assoc] w) Hlt).
    destruct w. unfold after in *. cbn in IH |- *.
    unfold log_call, add_call. cbn.
    rewrite IH. rewrite <- !app_assoc. reflexivity.
Qed.

Local Arguments key_value : simpl never.
Local Arguments fetch_rows : simpl never.

Lemma list_all_serving (w : World) (rows : list Row) :
  serving w rows ->
  list_all conn w
  = (Return (Db2.order_by_key rows),
     after (Cexec_immediate SELECT_ALL
              :: repeat Cfetch_assoc
                   (S (List.length (Db2.order_by_key rows)))) w).
Proof.
  start w. unfold list_all, bind, exec_immediate, fetch_assoc. cbn.
  destruct (Db2.order_by_key rows) as [|r rest]; [finish|].
  cbn. unfold log_call, add_call. cbn.
  rewrite fetch_rows_enough by (rewrite length_map; lia).
  unfold after. cbn. rewrite <- !app_assoc. reflexivity.
Qed.

Lemma search_keys_serving (pattern : string) (w : World) (rows : list Row) :
  serving w rows ->
  search_keys conn pattern w
  = (Return (Db2.order_by_key (Db2.where_like pattern rows)),
     after ([Cprepare SELECT_LIKE; Cbind_param 1 pattern;
             Cexecute SELECT_LIKE]
              ++ repeat Cfetch_assoc
                   (S (List.length
                         (Db2.order_by_key (Db2.where_like pattern rows)))))
       w).
Proof.
  start w. unfold search_keys, bind, prepare, bind_param, execute,
    fetch_assoc. cbn.
  destruct (Db2.order_by_key (Db2.where_like pattern rows)) as [|r rest];
    [finish|].
  cbn. unfold log_call, add_call. cbn.
  rewrite fetch_rows_enough by (rewrite length_map; lia).
  unfold after. cbn. rewrite <- !app_assoc. reflexivity.
Qed.

End Serving.

(** ** Write, read, delete *)

Lemma where_key_unique (k v : string) (rows : list Row) :
  NoDup (keys rows) -> In (k, v) rows -> Db2.where_key k rows = [(k, v)].
Proof.
  induction rows as [|r rest IH]; simpl; intros Hnd Hin; [contradiction|].
  inversion Hnd as [|x l Hnotin Hrest]; subst.
  destruct Hin as [->|Hin]; simpl.
  - rewrite String.eqb_refl.
    now rewrite (SqlFacts.where_key_absent k rest Hnotin).
  - destruct (String.eqb_spec (fst r) k) as [E|E].
    + exfalso. apply Hnotin. subst k.
      unfold keys. apply in_map_iff. now exists (fst r, v).
    + now apply IH.
Qed.

(** C1: for a key of at most 80 characters and a value of at most 200,
    [set_key] followed by [get_key] with the same key returns exactly
    that value (on a backend that has the table and reports no fault). *)
Theorem set_key_then_get_key
  (conn : IBM_DBConnection) (key value : string) (w : World) (rows : list Row) :
  serving w rows ->
  String.length key <= 80 -> String.length value <= 200 ->
  exists w1 w2,
    set_key conn key value w = (Return tt, w1)
    /\ get_key conn key w1 = (Return (Some value), w2).
Proof.
  intros Hw Hk Hv.
  rewrite (set_key_serving conn key value w rows Hw Hk Hv).
  eexists. eexists. split; [reflexivity|].
  erewrite get_key_serving.
  2:{ apply serving_add_stdout. eapply serving_set_table.
      apply serving_after. exact Hw. }
  rewrite SqlFacts.where_key_merge. reflexivity.
Qed.

Lemma set_key_then_get_key_witness :
  let w := mkWorld [] [] (Some [("a.b", "1")]) false [] [] [] in
  exists w1 w2,
    set_key (Handle "dsn") "a.b" "2" w = (Return tt, w1)
    /\ get_key (Handle "dsn") "a.b" w1 = (Return (Some "2"), w2).
Proof.
  apply (set_key_then_get_key (Handle "dsn") "a.b" "2"
           (mkWorld [] [] (Some [("a.b", "1")]) false [] [] [])
           [("a.b", "1")]).
  - split; reflexivity.
  - simpl. lia.
  - simpl. lia.
Defined.

(** C6: when the key is longer than 80 characters or the value longer
    than 200, [set_key] prints one error line that names an offending
    field (the key when it is too long, else the value) with its
    content, returns, and changes nothing else: no driver call is made
    and the table is the same. *)
Theorem set_key_rejects_long_fields
  (conn : IBM_DBConnection) (key value : string) (w : World) :
  80 < String.length key \/ 200 < String.length value ->
  exists line,
    set_key conn key value w = (Return tt, add_stdout (Printed line) w)
    /\ calls (add_stdout (Printed line) w) = calls w
    /\ table (add_stdout (Printed line) w) = table w
    /\ faults (add_stdout (Printed line) w) = faults w
    /\ ((80 < String.length key
         /\ line = "[ERROR] Key too long (max 80 chars): '" ++ key ++ "'")
        \/ (200 < String.length value
            /\ line = "[ERROR] Value too long (max 200 chars): '"
                      ++ value ++ "'")).
Proof.
  intros H. unfold set_key.
  destruct (80 <? String.length key)%nat eqn:Ek.
  - eexists. split; [reflexivity|]. repeat split.
    left. split; [now apply Nat.ltb_lt|reflexivity].
  - destruct H as [H|H]; [apply Nat.ltb_lt in H; congruence|].
    assert ((200 <? String.length value)%nat = true) as Ev
        by now apply Nat.ltb_lt.
    rewrite Ev. eexists. split; [reflexivity|]. repeat split.
    right. split; [assumption|reflexivity].
Qed.

Lemma set_key_rejects_long_fields_witness :
  let key := PyStr.repeat_char "k" 81 in
  let w := mkWorld [] [] (Some []) false [] [] [] in
  exists line,
    set_key (Handle "dsn") key "v" w = (Return tt, add_stdout (Printed line) w)
    /\ calls (add_stdout (Printed line) w) = calls w
    /\ table (add_stdout (Printed line) w) = table w
    /\ faults (add_stdout (Printed line) w) = faults w
    /\ ((80 < String.length key
         /\ line = "[ERROR] Key too long (max 80 chars): '" ++ key ++ "'")
        \/ (200 < String.length "v"
            /\ line = "[ERROR] Value too long (max 200 chars): '"
                      ++ "v" ++ "'")).
Proof.
  apply (set_key_rejects_long_fields (Handle "dsn")
           (PyStr.repeat_char "k" 81) "v"
           (mkWorld [] [] (Some []) false [] [] [])).
  left. simpl. lia.
Defined.

(** C7: [get_key] on a key that is not in the table, because it was
    never written or because it was deleted, returns [None], the
    not-found result, and raises nothing; a key stored with the empty
    string gives [Some ""], which is another result. *)
Theorem get_key_absent_is_None
  (conn : IBM_DBConnection) (key : string) (w : World) (rows : list Row) :
  serving w rows ->
  (~ In key (keys rows) ->
   exists w', get_key conn key w = (Return None, w'))
  /\ (exists w1 w2,
        delete_key conn key w = (Return tt, w1)
        /\ get_key conn key w1 = (Return None, w2))
  /\ (NoDup (keys rows) -> In (key, "") rows ->
      exists w', get_key conn key w = (Return (Some ""), w'))
  /\ Some "" <> @None string.
Proof.
  intros Hw. repeat split.
  - intros Habs. rewrite (get_key_serving conn key w rows Hw).
    rewrite (SqlFacts.where_key_absent key rows Habs). now eexists.
  - rewrite (delete_key_serving conn key w rows Hw).
    eexists. eexists. split; [reflexivity|].
    erewrite get_key_serving.
    2:{ apply serving_add_stdout. eapply serving_set_table.
        apply serving_after. exact Hw. }
    rewrite SqlFacts.where_key_absent by apply SqlFacts.keys_delete.
    reflexivity.
  - intros Hnd Hin. rewrite (get_key_serving conn key w rows Hw).
    rewrite (where_key_unique key "" rows Hnd Hin). now eexists.
  - discriminate.
Qed.

Lemma get_key_absent_is_None_witness :
  let conn := Handle "dsn" in
  let w := mkWorld [] [] (Some [("a", "1"); ("e", "")]) false [] [] [] in
  (exists w', get_key conn "b" w = (Return None, w'))
  /\ (exists w1 w2,
        delete_key conn "a" w = (Return tt, w1)
        /\ get_key conn "a" w1 = (Return None, w2))
  /\ (exists w', get_key conn "e" w = (Return (Some ""), w')).
Proof.
  pose proof (get_key_absent_is_None (Handle "dsn") "b"
                (mkWorld [] [] (Some [("a", "1"); ("e", "")]) false [] [] [])
                [("a", "1"); ("e", "")] (conj eq_refl eq_refl)) as Hb.
  pose proof (get_key_absent_is_None (Handle "dsn") "a"
                (mkWorld [] [] (Some [("a", "1"); ("e", "")]) false [] [] [])
                [("a", "1"); ("e", "")] (conj eq_refl eq_refl)) as Ha.
  pose proof (get_key_absent_is_None (Handle "dsn") "e"
                (mkWorld [] [] (Some [("a", "1"); ("e", "")]) false [] [] [])
                [("a", "1"); ("e", "")] (conj eq_refl eq_refl)) as He.
  split; [|split].
  - apply (proj1 Hb). simpl. intros [H|[H|[]]]; discriminate.
  - exact (proj1 (proj2 Ha)).
  - apply (proj1 (proj2 (proj2 He))).
    + repeat constructor; simpl; intuition discriminate.
    + simpl. auto.
Defined.

(** C8: [delete_key] on a key that is not in the table returns without
    raising, prints its success line, and leaves the table as it was. *)
Theorem delete_key_absent_is_noop
  (conn : IBM_DBConnection) (key : string) (w : World) (rows : list Row) :
  serving w rows -> ~ In key (keys rows) ->
  exists w',
    delete_key conn key w = (Return tt, w')
    /\ table w' = Some rows
    /\ stdout w' = (stdout w ++ [Printed ("[OK] Deleted key '" ++ key ++ "'")])%list.
Proof.
  intros Hw Habs. rewrite (delete_key_serving conn key w rows Hw).
  eexists. split; [reflexivity|]. simpl.
  now rewrite (SqlFacts.delete_absent key rows Habs).
Qed.

Lemma delete_key_absent_is_noop_witness :
  let w := mkWorld [] [] (Some [("a", "1")]) false [] [] [] in
  exists w',
    delete_key (Handle "dsn") "zz" w = (Return tt, w')
    /\ table w' = Some [("a", "1")]
    /\ stdout w' = (stdout w ++ [Printed "[OK] Deleted key 'zz'"])%list.
Proof.
  apply (delete_key_absent_is_noop (Handle "dsn") "zz"
           (mkWorld [] [] (Some [("a", "1")]) false [] [] [])
           [("a", "1")]).
  - split; reflexivity.
  - simpl. intros [H|[]]. discriminate.
Defined.

(** ** Listing and searching *)

(** C9: [search_keys] returns the rows of [list_all] whose key matches
    the pattern, in the order [list_all] has them, which is ascending by
    key; the match is the pattern language of the contract; and for the
    pattern [app.%] these are the rows whose key starts with [app.]. *)
Theorem search_keys_filters_list_all
  (conn : IBM_DBConnection) (pattern : string) (w : World) (rows : list Row) :
  serving w rows ->
  exists all found w1 w2,
    list_all conn w = (Return all, w1)
    /\ search_keys conn pattern w = (Return found, w2)
    /\ found = filter (fun r => Db2.like pattern (fst r)) all
    /\ (forall r, In r found <-> In r all /\ LikeSpec pattern (fst r))
    /\ StronglySorted row_le all
    /\ table w1 = Some rows /\ table w2 = Some rows
    /\ (pattern = "app.%" ->
        found = filter (fun r => prefix "app." (fst r)) all).
Proof.
  intros Hw.
  rewrite (list_all_serving conn w rows Hw).
  rewrite (search_keys_serving conn pattern w rows Hw).
  destruct Hw as [Ht Hf].
  eexists. eexists. eexists. eexists.
  split; [reflexivity|]. split; [reflexivity|].
  assert (Db2.order_by_key (Db2.where_like pattern rows)
          = filter (fun r => Db2.like pattern (fst r)) (Db2.order_by_key rows))
    as Hfilter.
  { unfold Db2.where_like. now rewrite Db2Facts.filter_order_by_key. }
  split; [exact Hfilter|].
  split.
  { intros r. rewrite Hfilter, filter_In, SqlFacts.like_iff_spec. tauto. }
  split; [apply Db2Facts.order_by_key_sorted|].
  split; [exact Ht|]. split; [exact Ht|].
  intros ->. rewrite Hfilter. apply filter_ext. intros r.
  apply (SqlFacts.like_literal_percent "app." (fst r)).
  simpl. intros c [<-|[<-|[<-|[<-|[]]]]]; split; discriminate.
Qed.

Lemma search_keys_filters_list_all_witness :
  let w := mkWorld [] []
             (Some [("db.x", "3"); ("app.b", "2"); ("zap", "4"); ("app.a", "1")])
             false [] [] [] in
  exists w1 w2,
    list_all (Handle "dsn") w
    = (Return [("app.a", "1"); ("app.b", "2"); ("db.x", "3"); ("zap", "4")], w1)
    /\ search_keys (Handle "dsn") "app.%" w
       = (Return [("app.a", "1"); ("app.b", "2")], w2).
Proof.
  destruct (search_keys_filters_list_all (Handle "dsn") "app.%"
              (mkWorld [] []
                 (Some [("db.x", "3"); ("app.b", "2"); ("zap", "4");
                        ("app.a", "1")])
                 false [] [] [])
              [("db.x", "3"); ("app.b", "2"); ("zap", "4"); ("app.a", "1")]
              (conj eq_refl eq_refl))
    as (all & found & w1 & w2 & Hall & Hfound & _).
  exists w1, w2. split.
  - rewrite Hall. vm_compute in Hall. injection Hall as <- _. reflexivity.
  - rewrite Hfound. vm_compute in Hfound. injection Hfound as <- _.
    reflexivity.
Defined.

(** ** What the store operations and the command loop leave untouched

    A relation between the world before and after that is reflexive,
    transitive, and kept by printing, by driver calls other than
    [close], by the consumption of a fault and by the three updates of
    the table, is kept by every function of the program below
    [__exit__]. *)

Create HintDb respects_db.

Section Respects.

Variable R : World -> World -> Prop.
Hypothesis R_refl : forall w, R w w.
Hypothesis R_trans : forall a b c, R a b -> R b c -> R a c.
Hypothesis R_stdout : forall o w, R w (add_stdout o w).
Hypothesis R_call : forall c w, c <> Cclose -> R w (add_call c w).
Hypothesis R_faults : forall f w, R w (set_faults f w).
Hypothesis R_create :
  forall w, table w = None -> R w (set_table (Some []) w).
Hypothesis R_merge :
  forall k v rows w,
    table w = Some rows -> R w (set_table (Some (Db2.merge k v rows)) w).
Hypothesis R_delete :
  forall k rows w,
    table w = Some rows -> R w (set_table (Some (Db2.delete k rows)) w).

Lemma respects_ret {A} (a : A) : respects R (ret a).
Proof. intros w. apply R_refl. Qed.

Lemma respects_raise {A} (e : exn) : respects R (@raise A e).
Proof. intros w. apply R_refl. Qed.

Lemma respects_bind {A B} (m : Py A) (k : A -> Py B) :
  respects R m -> (forall a, respects R (k a)) -> respects R (bind m k).
Proof.
  intros Hm Hk w. unfold bind. specialize (Hm w).
  destruct (m w) as [[a|e] w']; simpl in *; [|exact Hm].
  eapply R_trans; [exact Hm|apply Hk].
Qed.

Lemma respects_try_except {A} (m : Py A) (h : exn -> Py A) :
  respects R m -> (forall e, respects R (h e)) -> respects R (try_except m h).
Proof.
  intros Hm Hh w. unfold try_except. specialize (Hm w).
  destruct (m w) as [[a|e] w']; simpl in *; [exact Hm|].
  eapply R_trans; [exact Hm|apply Hh].
Qed.

Lemma respects_print (s : string) : respects R (print s).
Proof. intros w. apply R_stdout. Qed.

Lemma respects_log_call (c : Call) : c <> Cclose -> respects R (log_call c).
Proof. intros Hc w. now apply R_call. Qed.

Lemma respects_round_trip : respects R round_trip.
Proof.
  intros w. unfold round_trip.
  destruct (faults w) as [|[e|] fs]; simpl; auto.
Qed.

Lemma respects_run (q : Sql) (ps : list (nat * string)) :
  respects R (run q ps).
Proof.
  intros w. unfold run.
  destruct q, (table w) as [rows|] eqn:Et; simpl; auto;
    repeat match goal with
      | |- context [match ?x with _ => _ end] => destruct x; simpl; auto
      end.
Qed.

Hint Resolve respects_ret respects_raise respects_print respects_round_trip
  respects_run : respects_db.

Ltac respects_step :=
  match goal with
  | |- respects _ (bind _ _) => apply respects_bind; [|intros ?]
  | |- respects _ (try_except _ _) => apply respects_try_except; [|intros ?]
  | |- respects _ (log_call _) => apply respects_log_call; discriminate
  | |- respects _ (if ?b then _ else _) => destruct b
  | |- respects _ (match ?x with _ => _ end) => destruct x
  | |- respects _ (let (_, _) := ?x in _) => destruct x
  end.

Ltac respects_auto := repeat respects_step; auto with respects_db.

Lemma respects_connect (dsn user password : string) :
  respects R (connect dsn user password).
Proof. unfold connect. respects_auto. Qed.

Lemma respects_exec_immediate (conn : IBM_DBConnection) (q : Sql) :
  respects R (exec_immediate conn q).
Proof. unfold exec_immediate. respects_auto. Qed.

Lemma respects_prepare (conn : IBM_DBConnection) (q : Sql) :
  respects R (prepare conn q).
Proof. unfold prepare. respects_auto. Qed.

Lemma respects_bind_param (stmt : IBM_DBStatement) (pos : nat) (v : string) :
  respects R (bind_param stmt pos v).
Proof. unfold bind_param. respects_auto. Qed.

Lemma respects_execute (stmt : IBM_DBStatement) : respects R (execute stmt).
Proof. unfold execute. respects_auto. Qed.

Lemma respects_fetch_assoc (stmt : IBM_DBStatement) :
  respects R (fetch_assoc stmt).
Proof. unfold fetch_assoc. respects_auto. Qed.

Lemma respects_getitem (row : option dict) (col : string) :
  respects R (getitem row col).
Proof. unfold getitem. respects_auto. Qed.

Hint Resolve respects_connect respects_exec_immediate respects_prepare
  respects_bind_param respects_execute respects_fetch_assoc
  respects_getitem : respects_db.

Lemma respects_fetch_rows (fuel : nat) :
  forall stmt row rows, respects R (fetch_rows fuel stmt row rows).
Proof.
  induction fuel as [|fuel IH]; intros stmt row rows; simpl;
    respects_auto.
Qed.

Hint Resolve respects_fetch_rows : respects_db.

Lemma respects_set_key (conn : IBM_DBConnection) (key value : string) :
  respects R (set_key conn key value).
Proof. unfold set_key. respects_auto. Qed.

Lemma respects_get_key (conn : IBM_DBConnection) (key : string) :
  respects R (get_key conn key).
Proof. unfold get_key. respects_auto. Qed.

Lemma respects_delete_key (conn : IBM_DBConnection) (key : string) :
  respects R (delete_key conn key).
Proof. unfold delete_key. respects_auto. Qed.

Lemma respects_list_all (conn : IBM_DBConnection) :
  respects R (list_all conn).
Proof. unfold list_all. respects_auto. Qed.

Lemma respects_search_keys (conn : IBM_DBConnection) (pattern : string) :
  respects R (search_keys conn pattern).
Proof. unfold search_keys. respects_auto. Qed.

Lemma respects_for_each {A} (l : list A) (body : A -> Py unit) :
  (forall x, respects R (body x)) -> respects R (for_each l body).
Proof.
  intros Hb. induction l as [|x l IH]; simpl; respects_auto.
Qed.

Lemma respects_print_table (rows : list (string * string)) :
  respects R (print_table rows).
Proof.
  unfold print_table. destruct rows as [|r rows]; [auto with respects_db|].
  repeat (apply respects_bind; [|intros ?]); auto with respects_db.
  apply respects_for_each. auto with respects_db.
Qed.

Lemma respects_print_help : respects R print_help.
Proof. unfold print_help. auto with respects_db. Qed.

Hint Resolve respects_set_key respects_get_key respects_delete_key
  respects_list_all respects_search_keys respects_print_table
  respects_print_help : respects_db.

Lemma respects_dispatch (conn : IBM_DBConnection) (parts : list string) :
  respects R (dispatch conn parts).
Proof. unfold dispatch. respects_auto. Qed.

Lemma respects_input (prompt : string) (ev : option Tty) :
  respects R (input prompt ev).
Proof.
  intros w. unfold input. destruct ev as [[s|]|]; simpl; apply R_stdout.
Qed.

Hint Resolve respects_dispatch respects_input : respects_db.

Lemma respects_repl_round (conn : IBM_DBConnection) (ev : option Tty) :
  respects R (repl_round conn ev).
Proof. unfold repl_round. respects_auto. Qed.

Hint Resolve respects_repl_round : respects_db.

Lemma respects_repl_loop (conn : IBM_DBConnection) (tty : list Tty) :
  respects R (repl_loop conn tty).
Proof.
  induction tty as [|ev rest IH]; simpl; respects_auto.
Qed.

Lemma respects_repl (conn : IBM_DBConnection) (tty : list Tty) :
  respects R (repl conn tty).
Proof.
  unfold repl. apply respects_bind; [auto with respects_db|].
  intros _. apply respects_repl_loop.
Qed.

Lemma respects_create_table (conn : IBM_DBConnection) :
  respects R (_create_table_if_not_exists conn).
Proof. unfold _create_table_if_not_exists. respects_auto. Qed.

Hint Resolve respects_create_table : respects_db.

Lemma respects_enter (dsn_config : string) :
  respects R (__enter__ dsn_config).
Proof. unfold __enter__. respects_auto. Qed.

End Respects.

(** ** One record per key *)

Lemma respects_unique_keys_of {A} (m : Py A) :
  (forall R : World -> World -> Prop,
      (forall w, R w w) ->
      (forall a b c, R a b -> R b c -> R a c) ->
      (forall o w, R w (add_stdout o w)) ->
      (forall c w, c <> Cclose -> R w (add_call c w)) ->
      (forall f w, R w (set_faults f w)) ->
      (forall w, table w = None -> R w (set_table (Some []) w)) ->
      (forall k v rows w,
          table w = Some rows -> R w (set_table (Some (Db2.merge k v rows)) w)) ->
      (forall k rows w,
          table w = Some rows -> R w (set_table (Some (Db2.delete k rows)) w)) ->
      respects R m) ->
  respects keeps_unique_keys m.
Proof.
  intros H. apply H; unfold keeps_unique_keys, unique_keys; simpl; auto.
  - intros a b c Hab Hbc Ha. exact (Hbc (Hab Ha)).
  - intros w _ _. constructor.
  - intros k v rows w E. rewrite E. apply SqlFacts.merge_unique.
  - intros k rows w E. rewrite E. apply SqlFacts.delete_unique.
Qed.

Lemma respects_closes_of {A} (m : Py A) :
  (forall R : World -> World -> Prop,
      (forall w, R w w) ->
      (forall a b c, R a b -> R b c -> R a c) ->
      (forall o w, R w (add_stdout o w)) ->
      (forall c w, c <> Cclose -> R w (add_call c w)) ->
      (forall f w, R w (set_faults f w)) ->
      (forall w, table w = None -> R w (set_table (Some []) w)) ->
      (forall k v rows w,
          table w = Some rows -> R w (set_table (Some (Db2.merge k v rows)) w)) ->
      (forall k rows w,
          table w = Some rows -> R w (set_table (Some (Db2.delete k rows)) w)) ->
      respects R m) ->
  respects keeps_closes m.
Proof.
  intros H. apply H; unfold keeps_closes, closes; simpl; auto.
  - intros a b c Hab Hbc. congruence.
  - intros c w Hc. rewrite filter_app, length_app. simpl.
    destruct c; simpl; try lia. congruence.
Qed.

Lemma merge_present_length (k v : string) (rows : list Row) :
  In k (keys rows) -> List.length (Db2.merge k v rows) = List.length rows.
Proof.
  intros H. apply SqlFacts.has_key_In in H. unfold Db2.merge.
  rewrite H. apply length_map.
Qed.

(** C2: the table holds at most one record per key, and each of the five
    store operations, and a whole run of the command loop, keeps it so
    in every state of the backend; a [set_key] on a key that is stored
    already, with a new value (both within the column bounds), leaves
    just one row under the key, with the new value, adds no row and
    raises nothing. *)
Theorem one_record_per_key
  (conn : IBM_DBConnection) (key value pattern : string) (tty : list Tty)
  (w : World) :
  unique_keys w ->
  unique_keys (snd (set_key conn key value w))
  /\ unique_keys (snd (get_key conn key w))
  /\ unique_keys (snd (delete_key conn key w))
  /\ unique_keys (snd (list_all conn w))
  /\ unique_keys (snd (search_keys conn pattern w))
  /\ unique_keys (snd (repl conn tty w))
  /\ (forall rows old,
         serving w rows -> In (key, old) rows ->
         String.length key <= 80 -> String.length value <= 200 ->
         exists w' rows',
           set_key conn key value w = (Return tt, w')
           /\ table w' = Some rows'
           /\ Db2.where_key key rows' = [(key, value)]
           /\ List.length rows' = List.length rows).
Proof.
  intros Hu.
  split; [apply (respects_unique_keys_of (set_key conn key value));
          [intros; now apply respects_set_key|exact Hu]|].
  split; [apply (respects_unique_keys_of (get_key conn key));
          [intros; now apply respects_get_key|exact Hu]|].
  split; [apply (respects_unique_keys_of (delete_key conn key));
          [intros; now apply respects_delete_key|exact Hu]|].
  split; [apply (respects_unique_keys_of (list_all conn));
          [intros; now apply respects_list_all|exact Hu]|].
  split; [apply (respects_unique_keys_of (search_keys conn pattern));
          [intros; now apply respects_search_keys|exact Hu]|].
  split; [apply (respects_unique_keys_of (repl conn tty));
          [intros; now apply respects_repl|exact Hu]|].
  intros rows old Hw Hin Hk Hv.
  rewrite (set_key_serving conn key value w rows Hw Hk Hv).
  eexists. eexists. split; [reflexivity|]. split; [reflexivity|].
  destruct Hw as [Ht _]. unfold unique_keys in Hu. rewrite Ht in Hu.
  assert (In key (keys rows)) as Hkey.
  { unfold keys. apply in_map_iff. now exists (key, old). }
  split.
  - rewrite SqlFacts.where_key_merge.
    pose proof (SqlFacts.rows_for_unique key rows Hu) as Hle.
    destruct (rows_for key rows) as [|[|n]]; simpl; try reflexivity; lia.
  - now apply merge_present_length.
Qed.

Lemma one_record_per_key_witness :
  let conn := Handle "dsn" in
  let w := stocked_world [("a", "1"); ("b", "2")] [] in
  unique_keys (snd (set_key conn "b" "3" w))
  /\ exists w' rows',
      set_key conn "b" "3" w = (Return tt, w')
      /\ table w' = Some rows'
      /\ Db2.where_key "b" rows' = [("b", "3")]
      /\ List.length rows' = 2.
Proof.
  assert (unique_keys (stocked_world [("a", "1"); ("b", "2")] [])) as Hu.
  { unfold unique_keys. simpl.
    repeat constructor; simpl; intuition discriminate. }
  pose proof (one_record_per_key (Handle "dsn") "b" "3" "%" []
                (stocked_world [("a", "1"); ("b", "2")] []) Hu) as H.
  split; [exact (proj1 H)|].
  apply (proj2 (proj2 (proj2 (proj2 (proj2 (proj2 H)))))
           [("a", "1"); ("b", "2")] "2").
  - split; reflexivity.
  - simpl. auto.
  - simpl. lia.
  - simpl. lia.
Defined.

(** ** Stepping through [bind] and [try_except] *)

Section Steps.

Context {A B : Type}.

Lemma bind_return (m : Py A) (k : A -> Py B) (w w' : World) (a : A) :
  m w = (Return a, w') -> bind m k w = k a w'.
Proof. unfold bind. now intros ->. Qed.

Lemma bind_raise (m : Py A) (k : A -> Py B) (w w' : World) (e : exn) :
  m w = (Raise e, w') -> bind m k w = (Raise e, w').
Proof. unfold bind. now intros ->. Qed.

Lemma try_return (m : Py A) (h : exn -> Py A) (w w' : World) (a : A) :
  m w = (Return a, w') -> try_except m h w = (Return a, w').
Proof. unfold try_except. now intros ->. Qed.

Lemma try_raise (m : Py A) (h : exn -> Py A) (w w' : World) (e : exn) :
  m w = (Raise e, w') -> try_except m h w = h e w'.
Proof. unfold try_except. now intros ->. Qed.

End Steps.

(** ** Release of the connection *)

(** X18: once [__enter__] has returned, the connection is closed exactly
    once however the command loop ends: on a quit command, the end of
    input or Ctrl-C at the prompt, and on any exception that leaves the
    loop. *)
Lemma session_closes_once (dsn_config : string) (tty : list Tty)
  (w w1 : World) (conn : IBM_DBConnection) (self : DB2Connections) :
  __enter__ dsn_config w = (Return (conn, self), w1) ->
  closes (snd (with_DB2Connections dsn_config (fun c => repl c tty) w))
  = S (closes w).
Proof.
  intros Henter. unfold with_DB2Connections.
  rewrite (bind_return _ _ _ _ _ Henter).
  assert (closes w1 = closes w) as H1.
  { pose proof (respects_closes_of (__enter__ dsn_config)
                  (fun R r t o c f cr mg dl =>
                     respects_enter R r t o c f cr mg dl dsn_config) w) as H.
    now rewrite Henter in H. }
  assert (closes (snd (repl conn tty w1)) = closes w1) as H2.
  { apply (respects_closes_of (repl conn tty)).
    intros R r t o c f cr mg dl.
    now apply respects_repl. }
  cbv beta iota. unfold with_body.
  destruct (repl conn tty w1) as [[[]|e] w2]; simpl in H2;
    rewrite <- H1, <- H2; unfold closes; simpl;
    rewrite filter_app, length_app; simpl; lia.
Qed.

(** C3: the connection is established, the create-table statement fails
    with an error that is not the already-exists one, and [main] ends
    with that error without one call of [close]: [__enter__] raised, so
    the [with] statement never runs [__exit__]. *)
Theorem bootstrap_failure_skips_close (tty : list Tty) :
  exists w',
    main tty (sample_world false [None; Some (Exception sql0551n)])
    = (Raise (Exception sql0551n), w')
    /\ calls w' = [Cconnect sample_dsn; Cexec_immediate CREATE_TABLE]
    /\ In (Printed ("[OK] Connected to Db2." ++ nl)) (stdout w')
    /\ closes w' = 0.
Proof.
  eexists. split; [vm_compute; reflexivity|].
  split; [reflexivity|]. split; [|reflexivity].
  vm_compute. tauto.
Qed.

(** The same session when the bootstrap goes through: one [close]. *)
Example sample_session_closes_once :
  closes (snd (main [Line "set a.b 1"; Line "quit"] (sample_world false [])))
  = 1.
Proof. vm_compute. reflexivity. Qed.

(** ** Failures of a statement in the command loop *)

(** C4, as the contract words it, fails: the statement behind [get a]
    fails, the loop prints nothing for it and the command after it is
    never run. *)
Lemma query_error_not_caught :
  ~ resumes_after_query_error (Handle sample_dsn) "get a"
      [Line "set b 1"] (stocked_world [] [Some (Exception sql0911n)]).
Proof.
  intros H.
  destruct (H sql0911n
              (mkWorld sample_environ ["/etc/ssl/db2.crt"] (Some []) false []
                 [Cprepare SELECT_VALUE; Cbind_param 1 "a";
                  Cexecute SELECT_VALUE]
                 [Prompted "db2-meta> "]))
    as [diagnostic Hd].
  - vm_compute. reflexivity.
  - vm_compute in Hd. discriminate Hd.
Qed.

(** ** Schema bootstrap *)

Lemma enter_after_connect (dsn_config : string) (conn : IBM_DBConnection)
  (w w1 w2 : World) (r : outcome IBM_DBStatement) :
  connect dsn_config "" "" (add_stdout (Printed "[OK] Connecting to DB2") w)
  = (Return conn, w1) ->
  exec_immediate conn CREATE_TABLE
    (add_stdout (Printed ("[OK] Connected to Db2." ++ nl)) w1) = (r, w2) ->
  __enter__ dsn_config w
  = match r with
    | Return _ =>
        (Return (conn, mkDB2Connections dsn_config conn),
         add_stdout (Printed ("[OK] Table 'metadata' is ready." ++ nl)) w2)
    | Raise e =>
        if reports_already_exists e then
          (Return (conn, mkDB2Connections dsn_config conn),
           add_stdout (Printed ("[OK] Table 'metadata' already exists." ++ nl))
             w2)
        else
          (Raise e,
           if is_Exception e
           then add_stdout
                  (Printed ("[ERROR] Could not connect: " ++ str_exn e)) w2
           else w2)
    end.
Proof.
  intros Hconnect Hcreate.
  unfold __enter__, _create_table_if_not_exists, try_except, bind, print.
  cbv beta iota. rewrite Hconnect. cbv beta iota. rewrite Hcreate.
  destruct r as [stmt|e]; [reflexivity|].
  unfold reports_already_exists.
  destruct (is_Exception e) eqn:Ee; simpl; [|now rewrite Ee].
  destruct (str_in "-601" (str_exn e)); simpl; [reflexivity|].
  now rewrite Ee.
Qed.

Lemma sql0601n_has_code (msg : string) :
  ends_with "SQLCODE=-601" msg = true -> str_in "-601" msg = true.
Proof.
  induction msg as [|c msg IH]; intros H.
  - discriminate H.
  - cbn [ends_with] in H. apply orb_true_iff in H. destruct H as [H|H].
    + apply String.eqb_eq in H. rewrite H. reflexivity.
    + cbn [str_in]. rewrite (IH H). apply orb_true_r.
Qed.

(** C5, as the contract words it, fails: the create-table statement is
    refused for want of authorization, an error that is not the
    table-already-exists one, and the session goes on into the command
    loop, because the text of the error has -601 in a name. *)
Lemma bootstrap_swallows_other_failure :
  ~ other_bootstrap_failures_are_fatal sample_dsn
      (sample_world false [None; Some (Exception sql0551n_ibmid)]).
Proof.
  intros H.
  destruct (H (Handle sample_dsn)
              (mkWorld sample_environ ["/etc/ssl/db2.crt"] None false
                 [Some (Exception sql0551n_ibmid)] [Cconnect sample_dsn]
                 [Printed "[OK] Connecting to DB2"])
              (mkWorld sample_environ ["/etc/ssl/db2.crt"] None false []
                 [Cconnect sample_dsn; Cexec_immediate CREATE_TABLE]
                 [Printed "[OK] Connecting to DB2";
                  Printed ("[OK] Connected to Db2." ++ nl)])
              (Exception sql0551n_ibmid)
              eq_refl eq_refl eq_refl (fun _ => ret tt)) as [w3 Hw3].
  vm_compute in Hw3. discriminate Hw3.
Qed.

(** The same failure seen from [main]: the table is reported to exist,
    the prompt is shown, and the first command fails as there is no
    table. *)
Example bootstrap_swallowed_failure_session :
  exists w',
    main [Line "set a 1"]
      (sample_world false [None; Some (Exception sql0551n_ibmid)])
    = (Raise (Exception Db2.sql0204n), w')
    /\ In (Printed ("[OK] Table 'metadata' already exists." ++ nl)) (stdout w')
    /\ In prompt (stdout w')
    /\ table w' = None.
Proof.
  eexists. split; [vm_compute; reflexivity|].
  split; [|split]; [| |reflexivity]; vm_compute; tauto.
Qed.

(** C5, amended: once connected, [__enter__] takes a create-table
    statement that raises an [Exception] with -601 in its text, as the
    table-already-exists error SQL0601N has, for a success, as it does
    a statement that goes through, and the body of the [with]
    statement, the command loop, runs; any failure without -601 in its
    text leaves the [with] statement at once, whatever its body is.  An
    open against a backend that has the table already succeeds and
    leaves the rows alone, whether the server skips the statement or
    answers SQL0601N. *)
Theorem bootstrap_is_idempotent {A : Type} (dsn_config : string)
  (body : IBM_DBConnection -> Py A) (w : World) :
  (forall conn w1 w2 r,
      connect dsn_config "" ""
        (add_stdout (Printed "[OK] Connecting to DB2") w) = (Return conn, w1) ->
      exec_immediate conn CREATE_TABLE
        (add_stdout (Printed ("[OK] Connected to Db2." ++ nl)) w1) = (r, w2) ->
      match r with
      | Return _ =>
          with_DB2Connections dsn_config body w
          = with_body conn (mkDB2Connections dsn_config conn) body
              (add_stdout (Printed ("[OK] Table 'metadata' is ready." ++ nl))
                 w2)
      | Raise e =>
          if reports_already_exists e then
            with_DB2Connections dsn_config body w
            = with_body conn (mkDB2Connections dsn_config conn) body
                (add_stdout
                   (Printed ("[OK] Table 'metadata' already exists." ++ nl))
                   w2)
          else
            with_DB2Connections dsn_config body w
            = (Raise e,
               if is_Exception e
               then add_stdout
                      (Printed ("[ERROR] Could not connect: " ++ str_exn e)) w2
               else w2)
      end)
  /\ (forall rows,
         serving w rows ->
         exists w',
           __enter__ dsn_config w
           = (Return (Handle dsn_config,
                      mkDB2Connections dsn_config (Handle dsn_config)), w')
           /\ serving w' rows)
  /\ (forall e, is_sql0601n e = true -> reports_already_exists e = true).
Proof.
  split; [|split].
  3:{ intros [msg| | | | | |] H; try discriminate H.
      unfold reports_already_exists. simpl.
      now apply sql0601n_has_code. }
  - intros conn w1 w2 r Hconnect Hcreate.
    pose proof (enter_after_connect dsn_config conn w w1 w2 r Hconnect Hcreate)
      as Henter.
    unfold with_DB2Connections.
    destruct r as [stmt|e].
    + now rewrite (bind_return _ _ _ _ _ Henter).
    + destruct (reports_already_exists e).
      * now rewrite (bind_return _ _ _ _ _ Henter).
      * now rewrite (bind_raise _ _ _ _ _ Henter).
  - intros rows Hw. destruct w as [env fl tb sd fs cs out].
    destruct Hw as [Ht Hf]. simpl in Ht, Hf. subst tb fs.
    destruct sd; eexists; (split; [vm_compute; reflexivity|]);
      split; reflexivity.
Qed.

Lemma bootstrap_is_idempotent_witness :
  let body := fun c : IBM_DBConnection => repl c [Line "get a"] in
  let self := mkDB2Connections sample_dsn (Handle sample_dsn) in
  let w := mkWorld sample_environ ["/etc/ssl/db2.crt"] (Some [("a", "1")])
             true [] [] [] in
  let w2 := mkWorld sample_environ ["/etc/ssl/db2.crt"] (Some [("a", "1")])
              true [] [Cconnect sample_dsn; Cexec_immediate CREATE_TABLE]
              [Printed "[OK] Connecting to DB2";
               Printed ("[OK] Connected to Db2." ++ nl)] in
  with_DB2Connections sample_dsn body w
  = with_body (Handle sample_dsn) self body
      (add_stdout (Printed ("[OK] Table 'metadata' already exists." ++ nl)) w2)
  /\ exists w',
      __enter__ sample_dsn w = (Return (Handle sample_dsn, self), w')
      /\ serving w' [("a", "1")].
Proof.
  pose proof (bootstrap_is_idempotent sample_dsn
                (fun c : IBM_DBConnection => repl c [Line "get a"])
                (mkWorld sample_environ ["/etc/ssl/db2.crt"]
                   (Some [("a", "1")]) true [] [] [])) as [Hfirst [Hsecond _]].
  split.
  - apply (Hfirst (Handle sample_dsn)
             (mkWorld sample_environ ["/etc/ssl/db2.crt"] (Some [("a", "1")])
                true [] [Cconnect sample_dsn]
                [Printed "[OK] Connecting to DB2"])
             (mkWorld sample_environ ["/etc/ssl/db2.crt"] (Some [("a", "1")])
                true [] [Cconnect sample_dsn; Cexec_immediate CREATE_TABLE]
                [Printed "[OK] Connecting to DB2";
                 Printed ("[OK] Connected to Db2." ++ nl)])
             (Raise (Exception Db2.sql0601n))).
    + vm_compute. reflexivity.
    + vm_compute. reflexivity.
  - apply (Hsecond [("a", "1")]). split; reflexivity.
Defined.

(** A create-table statement that fails for another reason ends the
    session before the first prompt. *)
Example bootstrap_other_failure_is_fatal :
  main [Line "set a 1"] (sample_world false [None; Some (Exception sql0551n)])
  = (Raise (Exception sql0551n),
     mkWorld sample_environ ["/etc/ssl/db2.crt"] None false []
       [Cconnect sample_dsn; Cexec_immediate CREATE_TABLE]
       [Printed "Database connection settings:";
        Printed "  Host: db2.example.net"; Printed "  Port: 50001";
        Printed "  Database: BLUDB"; Printed "  User: meta";
        Printed "  SSL Path: /etc/ssl/db2.crt";
        Printed "[OK] Connecting to DB2";
        Printed ("[OK] Connected to Db2." ++ nl);
        Printed ("[ERROR] Could not connect: " ++ sql0551n)]).
Proof. vm_compute. reflexivity. Qed.

(** ** Command words *)

Lemma repl_round_line (conn : IBM_DBConnection) (line : string) (w : World) :
  repl_round conn (Some (Line line)) w
  = (if strip line =? "" then ret Next
     else dispatch conn (split 2 (strip line)))
      (add_stdout (Prompted "db2-meta> ") w).
Proof. reflexivity. Qed.

Lemma dispatch_set (conn : IBM_DBConnection) (word : string)
  (args : list string) :
  lower word = "set" ->
  dispatch conn (word :: args)
  = if (List.length (word :: args) <? 3)%nat
    then print "[ERROR] Usage: set <key> <value>";; ret Next
    else set_key conn (nth 1 (word :: args) "") (nth 2 (word :: args) "");;
         ret Next.
Proof.
  intros H. unfold dispatch. change (nth 0 (word :: args) "") with word.
  cbv zeta. rewrite H. reflexivity.
Qed.

Lemma dispatch_get (conn : IBM_DBConnection) (word : string)
  (args : list string) :
  lower word = "get" ->
  dispatch conn (word :: args)
  = if (List.length (word :: args) <? 2)%nat
    then print "[ERROR] Usage: get <key>";; ret Next
    else
      val <- get_key conn (nth 1 (word :: args) "");;
      match val with
      | None =>
          print ("  (key '" ++ nth 1 (word :: args) "" ++ "' not found)");;
          ret Next
      | Some v => print ("  " ++ nth 1 (word :: args) "" ++ " = " ++ v);;
                  ret Next
      end.
Proof.
  intros H. unfold dispatch. change (nth 0 (word :: args) "") with word.
  cbv zeta. rewrite H. reflexivity.
Qed.

Lemma dispatch_del (conn : IBM_DBConnection) (word : string)
  (args : list string) :
  lower word = "del" ->
  dispatch conn (word :: args)
  = if (List.length (word :: args) <? 2)%nat
    then print "[ERROR] Usage: del <key>";; ret Next
    else delete_key conn (nth 1 (word :: args) "");; ret Next.
Proof.
  intros H. unfold dispatch. change (nth 0 (word :: args) "") with word.
  cbv zeta. rewrite H. reflexivity.
Qed.

Lemma dispatch_list (conn : IBM_DBConnection) (word : string)
  (args : list string) :
  lower word = "list" ->
  dispatch conn (word :: args)
  = (rows <- list_all conn;; print_table rows;; ret Next).
Proof.
  intros H. unfold dispatch. change (nth 0 (word :: args) "") with word.
  cbv zeta. rewrite H. reflexivity.
Qed.

Lemma dispatch_find (conn : IBM_DBConnection) (word : string)
  (args : list string) :
  lower word = "find" ->
  dispatch conn (word :: args)
  = if (List.length (word :: args) <? 2)%nat
    then print "[ERROR] Usage: find <pattern>  e.g.  find app.%";; ret Next
    else rows <- search_keys conn (nth 1 (word :: args) "");;
         print_table rows;; ret Next.
Proof.
  intros H. unfold dispatch. change (nth 0 (word :: args) "") with word.
  cbv zeta. rewrite H. reflexivity.
Qed.





(** ** A statement that fails in the middle of a session *)

Section Faults.

Variable conn : IBM_DBConnection.
Variables (w : World) (e : exn) (pending : list (option exn)).
Hypothesis Hfault : faults w = Some e :: pending.

Ltac run_fault :=
  destruct w as [env fl tb sd fs cs out]; simpl in Hfault; subst fs;
  cbn;
  unfold print, log_call, add_stdout, set_table, set_faults, after, add_call;
  cbn; rewrite <- ?app_assoc; reflexivity.

Lemma set_key_fault (key value : string) :
  String.length key <= 80 -> String.length value <= 200 ->
  set_key conn key value w
  = (Raise e,
     set_faults pending
       (after [Cprepare MERGE_INTO; Cbind_param 1 key; Cbind_param 2 value;
               Cexecute MERGE_INTO] w)).
Proof.
  intros Hk Hv. unfold set_key.
  apply Nat.ltb_ge in Hk, Hv. rewrite Hk, Hv. run_fault.
Qed.

Lemma get_key_fault (key : string) :
  get_key conn key w
  = (Raise e,
     set_faults pending
       (after [Cprepare SELECT_VALUE; Cbind_param 1 key;
               Cexecute SELECT_VALUE] w)).
Proof. run_fault. Qed.

Lemma delete_key_fault (key : string) :
  delete_key conn key w
  = (Raise e,
     set_faults pending
       (after [Cprepare DELETE_FROM; Cbind_param 1 key;
               Cexecute DELETE_FROM] w)).
Proof. run_fault. Qed.

Lemma list_all_fault :
  list_all conn w
  = (Raise e, set_faults pending (after [Cexec_immediate SELECT_ALL] w)).
Proof. run_fault. Qed.

Lemma search_keys_fault (pattern : string) :
  search_keys conn pattern w
  = (Raise e,
     set_faults pending
       (after [Cprepare SELECT_LIKE; Cbind_param 1 pattern;
               Cexecute SELECT_LIKE] w)).
Proof. run_fault. Qed.

End Faults.

(** C4, amended: when the server makes the statement of a command fail,
    be the command set, get, del, list or find, the exception is not
    caught by the loop: it leaves [repl] at once, nothing is printed
    for it, the table is as it was and no later command is read; the
    [with] statement then closes the connection and lets the exception
    go on out of the session. *)
Theorem query_error_ends_session
  (conn : IBM_DBConnection) (self : DB2Connections)
  (line : string) (rest : list Tty) (w : World)
  (e : exn) (pending : list (option exn)) :
  runs_statement (split 2 (strip line)) ->
  faults w = Some e :: pending ->
  exists w',
    repl_loop conn (Line line :: rest) w = (Raise e, w')
    /\ stdout w' = (stdout w ++ [prompt])%list
    /\ table w' = table w
    /\ faults w' = pending
    /\ with_body conn self (fun c => repl_loop c (Line line :: rest)) w
       = (Raise e,
          add_stdout (Printed (nl ++ "[OK] Connection closed."))
            (add_call Cclose w')).
Proof.
  intros Hruns Hfault.
  assert (exists w',
             repl_round conn (Some (Line line)) w = (Raise e, w')
             /\ stdout w' = (stdout w ++ [prompt])%list
             /\ table w' = table w /\ faults w' = pending)
    as (w' & Hround & Hout & Htable & Hpending).
  { rewrite repl_round_line.
    destruct (split 2 (strip line)) as [|word args] eqn:Hparts;
      [contradiction|].
    destruct (strip line) as [|c s]; [discriminate Hparts|].
    change (String c s =? "") with false. cbv beta match.
    assert (faults (add_stdout prompt w) = Some e :: pending) as Hf
        by exact Hfault.
    destruct Hruns as [[Hword (k & v & more & -> & Hk & Hv)]
                      |[[Hword Hargs]|Hword]].
    - rewrite (dispatch_set conn word _ Hword). cbn [List.length Nat.ltb
        Nat.leb nth].
      erewrite bind_raise;
        [|apply (set_key_fault conn _ e pending Hf k v Hk Hv)].
      eexists. repeat split.
    - destruct args as [|k more]; [congruence|].
      destruct Hword as [Hword|[Hword|[Hword|[]]]]; symmetry in Hword.
      + rewrite (dispatch_get conn word _ Hword). cbn [List.length Nat.ltb
          Nat.leb nth].
        erewrite bind_raise;
          [|apply (get_key_fault conn _ e pending Hf k)].
        eexists. repeat split.
      + rewrite (dispatch_del conn word _ Hword). cbn [List.length Nat.ltb
          Nat.leb nth].
        erewrite bind_raise;
          [|apply (delete_key_fault conn _ e pending Hf k)].
        eexists. repeat split.
      + rewrite (dispatch_find conn word _ Hword). cbn [List.length Nat.ltb
          Nat.leb nth].
        erewrite bind_raise;
          [|apply (search_keys_fault conn _ e pending Hf k)].
        eexists. repeat split.
    - rewrite (dispatch_list conn word _ Hword).
      erewrite bind_raise;
        [|apply (list_all_fault conn _ e pending Hf)].
      eexists. repeat split. }
  assert (repl_loop conn (Line line :: rest) w = (Raise e, w')) as Hloop.
  { simpl. now apply bind_raise. }
  exists w'. split; [exact Hloop|].
  split; [exact Hout|]. split; [exact Htable|]. split; [exact Hpending|].
  unfold with_body. rewrite Hloop. reflexivity.
Qed.

Lemma query_error_ends_session_witness :
  let self := mkDB2Connections sample_dsn (Handle sample_dsn) in
  let w := stocked_world [("a", "1")] [Some (Exception sql0911n)] in
  exists w',
    repl_loop (Handle sample_dsn) [Line "del a"; Line "set b 1"] w
    = (Raise (Exception sql0911n), w')
    /\ stdout w' = [prompt]
    /\ table w' = Some [("a", "1")]
    /\ faults w' = []
    /\ with_body (Handle sample_dsn) self
         (fun c => repl_loop c [Line "del a"; Line "set b 1"]) w
       = (Raise (Exception sql0911n),
          add_stdout (Printed (nl ++ "[OK] Connection closed."))
            (add_call Cclose w')).
Proof.
  apply (query_error_ends_session (Handle sample_dsn)
           (mkDB2Connections sample_dsn (Handle sample_dsn))
           "del a" [Line "set b 1"]
           (stocked_world [("a", "1")] [Some (Exception sql0911n)])
           (Exception sql0911n) []).
  - right. left. split; [simpl; tauto|discriminate].
  - reflexivity.
Defined.

(** Each of the five commands, with its statement failing: the
    exception leaves the loop and the command after it is not run. *)
Example query_error_in_every_command :
  forall line,
    In line ["set a 2"; "get a"; "del a"; "list"; "find a%"] ->
    exists w',
      repl_loop (Handle sample_dsn) [Line line; Line "set b 1"]
        (stocked_world [("a", "1")] [Some (Exception sql0911n)])
      = (Raise (Exception sql0911n), w')
      /\ table w' = Some [("a", "1")] /\ stdout w' = [prompt].
Proof.
  intros line [<-|[<-|[<-|[<-|[<-|[]]]]]];
    eexists; (split; [vm_compute; reflexivity|]); split; reflexivity.
Qed.

(** ** A session from start to end *)

(** Two writes, a search, a read, a delete, a read of the deleted key
    and a listing, typed at the prompt against a fresh server. *)
Example sample_session :
  let w := snd (main [Line "set a.b 1"; Line "set a.c 2"; Line "find a.%";
                      Line "get a.b"; Line "del a.b"; Line "get a.b";
                      Line "list"; Line "set k"; Line "exit"]
                  (sample_world false [])) in
  table w = Some [("a.c", "2")]
  /\ closes w = 1
  /\ filter (fun o => match o with Printed _ => true | Prompted _ => false end)
       (skipn 9 (stdout w))
     = [Printed ("Db2 Metadata Manager  |  type 'help' for commands" ++ nl);
        Printed "[OK] Set  'a.b' = '1'";
        Printed "[OK] Set  'a.c' = '2'";
        Printed "  +------+-------+";
        Printed "  | KEY  | VALUE |";
        Printed "  +------+-------+";
        Printed "  | a.b  | 1     |";
        Printed "  | a.c  | 2     |";
        Printed "  +------+-------+";
        Printed ("  2 row(s)" ++ nl);
        Printed "  a.b = 1";
        Printed "[OK] Deleted key 'a.b'";
        Printed "  (key 'a.b' not found)";
        Printed "  +------+-------+";
        Printed "  | KEY  | VALUE |";
        Printed "  +------+-------+";
        Printed "  | a.c  | 2     |";
        Printed "  +------+-------+";
        Printed ("  1 row(s)" ++ nl);
        Printed "[ERROR] Usage: set <key> <value>";
        Printed (nl ++ "[OK] Connection closed.")].
Proof. vm_compute. repeat split. Qed.

(** * More of the store operations *)

(** ** More facts about the SQL engine *)

Lemma insert_row_perm (r : Row) (rows : list Row) :
  Permutation (r :: rows) (Db2.insert_row r rows).
Proof.
  induction rows as [|r' rest IH]; simpl; [reflexivity|].
  destruct (fst r <=? fst r')%string; [reflexivity|].
  rewrite perm_swap. now constructor.
Qed.

Lemma order_by_key_perm (rows : list Row) :
  Permutation rows (Db2.order_by_key rows).
Proof.
  induction rows as [|r rest IH]; simpl; [constructor|].
  rewrite <- insert_row_perm. now constructor.
Qed.

Lemma key_le_neq_lt (s t : string) :
  key_le s t -> s <> t -> (s <? t)%string = true.
Proof.
  unfold key_le, String.leb, String.ltb. intros Hle Hne.
  destruct (String.compare s t) eqn:E; try reflexivity; try discriminate.
  exfalso. apply Hne. now apply String.compare_eq_iff.
Qed.

Lemma sorted_unique_strict (rows : list Row) :
  StronglySorted row_le rows -> NoDup (keys rows) ->
  StronglySorted row_lt rows.
Proof.
  induction 1 as [|r rest Hs IH Hall]; intros Hnd; constructor.
  - apply IH. now inversion Hnd.
  - inversion Hnd as [|x l Hnotin Hrest]; subst.
    rewrite Forall_forall in *. intros r' Hin.
    apply key_le_neq_lt; [now apply Hall|].
    intros E. apply Hnotin. rewrite E. unfold keys. now apply in_map.
Qed.

Lemma like_plain (p s : string) :
  plain p -> Db2.like p s = (p =? s).
Proof.
  revert s. induction p as [|c p IH]; intros s Hp.
  - now destruct s.
  - destruct (Hp c (or_introl eq_refl)) as [Hc Hu].
    rewrite SqlFacts.like_other by assumption.
    destruct s as [|d s]; [reflexivity|].
    apply Ascii.eqb_neq in Hu. rewrite Hu. simpl.
    rewrite IH; [reflexivity|].
    intros c' Hc'. apply Hp. now right.
Qed.

Lemma where_key_merge_other (k k' v : string) (rows : list Row) :
  k' <> k -> Db2.where_key k' (Db2.merge k v rows) = Db2.where_key k' rows.
Proof.
  intros Hne. unfold Db2.merge. destruct (Db2.has_key k rows).
  - induction rows as [|r rest IH]; simpl; [reflexivity|].
    destruct (String.eqb_spec (fst r) k) as [E|E]; simpl;
      fold (Db2.where_key k' rest); rewrite IH; [|reflexivity].
    destruct (String.eqb_spec (fst r) k') as [E'|E']; [congruence|reflexivity].
  - rewrite SqlFacts.where_key_app. simpl.
    apply String.eqb_neq in Hne. rewrite String.eqb_sym in Hne.
    rewrite Hne. apply app_nil_r.
Qed.

Lemma where_key_delete_other (k k' : string) (rows : list Row) :
  k' <> k -> Db2.where_key k' (Db2.delete k rows) = Db2.where_key k' rows.
Proof.
  intros Hne. induction rows as [|r rest IH]; simpl; [reflexivity|].
  destruct (String.eqb_spec (fst r) k) as [E|E]; simpl.
  - rewrite IH. subst k. apply String.eqb_neq in Hne.
    rewrite String.eqb_sym in Hne. now rewrite Hne.
  - now rewrite IH.
Qed.

Lemma merge_idempotent (k v : string) (rows : list Row) :
  Db2.merge k v (Db2.merge k v rows) = Db2.merge k v rows.
Proof.
  assert (forall l : list Row,
             map (fun r : Row => if fst r =? k then (fst r, v) else r)
               (map (fun r : Row => if fst r =? k then (fst r, v) else r) l)
             = map (fun r : Row => if fst r =? k then (fst r, v) else r) l)
    as Hmap.
  { intros l. rewrite map_map. apply map_ext. intros r.
    destruct (fst r =? k) eqn:E; simpl; now rewrite E. }
  destruct (Db2.has_key k rows) eqn:E.
  - assert (Db2.merge k v rows
            = map (fun r : Row => if fst r =? k then (fst r, v) else r) rows)
      as Hm by (unfold Db2.merge; now rewrite E).
    rewrite Hm. unfold Db2.merge.
    assert (Db2.has_key k
              (map (fun r : Row => if fst r =? k then (fst r, v) else r) rows)
            = true) as E'.
    { apply SqlFacts.has_key_In. rewrite SqlFacts.keys_merge_present.
      now apply SqlFacts.has_key_In. }
    rewrite E'. apply Hmap.
  - assert (Db2.merge k v rows = (rows ++ [(k, v)])%list)
      as Hm by (unfold Db2.merge; now rewrite E).
    rewrite Hm. unfold Db2.merge.
    assert (Db2.has_key k (rows ++ [(k, v)]) = true) as E'.
    { apply SqlFacts.has_key_In. unfold keys. rewrite map_app.
      apply in_or_app. right. now left. }
    rewrite E', map_app. simpl. rewrite String.eqb_refl. simpl.
    apply (f_equal (fun l : list Row => (l ++ [(k, v)])%list)).
    rewrite <- (map_id rows) at 2. apply map_ext_in.
    intros r Hin. destruct (String.eqb_spec (fst r) k) as [Ek|Ek];
      [|reflexivity].
    exfalso. assert (Db2.has_key k rows = true) as Hk; [|congruence].
    apply SqlFacts.has_key_In. unfold keys. rewrite <- Ek. now apply in_map.
Qed.

Lemma delete_merge (k v : string) (rows : list Row) :
  Db2.delete k (Db2.merge k v rows) = Db2.delete k rows.
Proof.
  unfold Db2.merge. destruct (Db2.has_key k rows).
  - induction rows as [|r rest IH]; simpl; [reflexivity|].
    destruct (String.eqb_spec (fst r) k) as [E|E]; simpl.
    + rewrite E, String.eqb_refl. simpl. apply IH.
    + apply String.eqb_neq in E. rewrite E. simpl. now rewrite IH.
  - unfold Db2.delete. rewrite filter_app. simpl.
    rewrite String.eqb_refl. simpl. apply app_nil_r.
Qed.

(** ** Listing, searching and deleting together *)

(** X1: with one record per key, [list_all] returns the rows of the
    table, each once, in strictly ascending key order. *)
Theorem list_all_is_sorted_table
  (conn : IBM_DBConnection) (w : World) (rows : list Row) :
  serving w rows -> NoDup (keys rows) ->
  exists all w',
    list_all conn w = (Return all, w')
    /\ Permutation rows all
    /\ StronglySorted row_lt all
    /\ List.length all = List.length rows.
Proof.
  intros Hw Hnd. rewrite (list_all_serving conn w rows Hw).
  eexists. eexists. split; [reflexivity|].
  pose proof (order_by_key_perm rows) as Hperm.
  split; [exact Hperm|]. split.
  - apply sorted_unique_strict; [apply Db2Facts.order_by_key_sorted|].
    eapply Permutation_NoDup; [|exact Hnd].
    unfold keys. now apply Permutation_map.
  - apply Db2Facts.order_by_key_length.
Qed.

Lemma list_all_is_sorted_table_witness :
  exists all w',
    list_all (Handle sample_dsn) (stocked_world [("b", "2"); ("a", "1")] [])
    = (Return all, w')
    /\ Permutation [("b", "2"); ("a", "1")] all
    /\ StronglySorted row_lt all
    /\ List.length all = 2.
Proof.
  apply (list_all_is_sorted_table (Handle sample_dsn)
           (stocked_world [("b", "2"); ("a", "1")] [])
           [("b", "2"); ("a", "1")]).
  - split; reflexivity.
  - repeat constructor; simpl; intuition discriminate.
Defined.

(** X2: with one record per key, a search for a pattern that has no
    wildcard finds what [get_key] finds under that very key: the one
    row, or nothing. *)
Theorem search_keys_plain_is_get_key
  (conn : IBM_DBConnection) (pattern : string) (w : World) (rows : list Row) :
  serving w rows -> NoDup (keys rows) -> plain pattern ->
  exists found val w1 w2,
    search_keys conn pattern w = (Return found, w1)
    /\ get_key conn pattern w = (Return val, w2)
    /\ found = match val with
               | Some v => [(pattern, v)]
               | None => []
               end.
Proof.
  intros Hw Hnd Hp.
  rewrite (search_keys_serving conn pattern w rows Hw).
  rewrite (get_key_serving conn pattern w rows Hw).
  eexists. eexists. eexists. eexists.
  split; [reflexivity|]. split; [reflexivity|].
  assert (Db2.where_like pattern rows = Db2.where_key pattern rows) as ->.
  { apply filter_ext. intros r. rewrite (like_plain pattern (fst r) Hp).
    apply String.eqb_sym. }
  pose proof (SqlFacts.rows_for_unique pattern rows Hnd) as Hle.
  unfold rows_for in Hle.
  destruct (Db2.where_key pattern rows) as [|[k v] [|r rest]] eqn:E;
    simpl in Hle; try lia; [reflexivity|].
  simpl.
  assert (In (k, v) (Db2.where_key pattern rows)) as Hin
      by (rewrite E; now left).
  apply filter_In in Hin. destruct Hin as [_ Hk]. simpl in Hk.
  apply String.eqb_eq in Hk. now subst k.
Qed.

Lemma search_keys_plain_is_get_key_witness :
  exists w1 w2,
    search_keys (Handle sample_dsn) "app.a"
      (stocked_world [("app.b", "2"); ("app.a", "1")] [])
    = (Return [("app.a", "1")], w1)
    /\ get_key (Handle sample_dsn) "app.a"
         (stocked_world [("app.b", "2"); ("app.a", "1")] [])
       = (Return (Some "1"), w2).
Proof.
  destruct (search_keys_plain_is_get_key (Handle sample_dsn) "app.a"
              (stocked_world [("app.b", "2"); ("app.a", "1")] [])
              [("app.b", "2"); ("app.a", "1")])
    as (found & val & w1 & w2 & Hs & Hg & Hf).
  - split; reflexivity.
  - repeat constructor; simpl; intuition discriminate.
  - intros c. simpl. intros [<-|[<-|[<-|[<-|[<-|[]]]]]]; split; discriminate.
  - exists w1, w2. split.
    + rewrite Hs. vm_compute in Hs. injection Hs as <- _. reflexivity.
    + rewrite Hg. vm_compute in Hg. injection Hg as <- _. reflexivity.
Defined.

(** X3: after [delete_key] the listing is the former listing without
    the rows of the deleted key. *)
Theorem delete_key_then_list_all
  (conn : IBM_DBConnection) (key : string) (w : World) (rows : list Row) :
  serving w rows ->
  exists before after_ w1 w2 w3,
    list_all conn w = (Return before, w1)
    /\ delete_key conn key w = (Return tt, w2)
    /\ list_all conn w2 = (Return after_, w3)
    /\ after_ = filter (fun r => negb (fst r =? key)) before
    /\ ~ In key (keys after_).
Proof.
  intros Hw.
  rewrite (list_all_serving conn w rows Hw).
  rewrite (delete_key_serving conn key w rows Hw).
  eexists. eexists. eexists. eexists. eexists.
  split; [reflexivity|]. split; [reflexivity|].
  erewrite list_all_serving.
  2:{ apply serving_add_stdout. eapply serving_set_table.
      apply serving_after. exact Hw. }
  split; [reflexivity|].
  assert (Db2.order_by_key (Db2.delete key rows)
          = filter (fun r => negb (fst r =? key)) (Db2.order_by_key rows))
    as Heq by (unfold Db2.delete; now rewrite Db2Facts.filter_order_by_key).
  split; [exact Heq|].
  rewrite Heq. unfold keys. rewrite in_map_iff.
  intros (r & <- & Hin). apply filter_In in Hin.
  destruct Hin as [_ Hin]. now rewrite String.eqb_refl in Hin.
Qed.

Lemma delete_key_then_list_all_witness :
  exists w2 w3,
    delete_key (Handle sample_dsn) "a"
      (stocked_world [("b", "2"); ("a", "1")] []) = (Return tt, w2)
    /\ list_all (Handle sample_dsn) w2 = (Return [("b", "2")], w3).
Proof.
  destruct (delete_key_then_list_all (Handle sample_dsn) "a"
              (stocked_world [("b", "2"); ("a", "1")] [])
              [("b", "2"); ("a", "1")] (conj eq_refl eq_refl))
    as (before & after_ & w1 & w2 & w3 & _ & Hd & Hl & _).
  exists w2, w3. split; [exact Hd|].
  vm_compute in Hd. injection Hd as <-.
  rewrite Hl. vm_compute in Hl. injection Hl as <- _. reflexivity.
Defined.

(** ** Writes *)

(** X4: a write or a delete under one key does not change what
    [get_key] returns for another key. *)
Theorem writes_leave_other_keys
  (conn : IBM_DBConnection) (key value other : string)
  (w : World) (rows : list Row) :
  serving w rows -> other <> key ->
  String.length key <= 80 -> String.length value <= 200 ->
  exists val w0 w1 w2 w3 w4,
    get_key conn other w = (Return val, w0)
    /\ set_key conn key value w = (Return tt, w1)
    /\ get_key conn other w1 = (Return val, w2)
    /\ delete_key conn key w = (Return tt, w3)
    /\ get_key conn other w3 = (Return val, w4).
Proof.
  intros Hw Hne Hk Hv.
  rewrite (get_key_serving conn other w rows Hw).
  rewrite (set_key_serving conn key value w rows Hw Hk Hv).
  rewrite (delete_key_serving conn key w rows Hw).
  do 6 eexists.
  split; [reflexivity|]. split; [reflexivity|]. split; [|split].
  - erewrite get_key_serving.
    2:{ apply serving_add_stdout. eapply serving_set_table.
        apply serving_after. exact Hw. }
    now rewrite where_key_merge_other.
  - reflexivity.
  - erewrite get_key_serving.
    2:{ apply serving_add_stdout. eapply serving_set_table.
        apply serving_after. exact Hw. }
    now rewrite where_key_delete_other.
Qed.

Lemma writes_leave_other_keys_witness :
  let conn := Handle sample_dsn in
  let w := stocked_world [("a", "1"); ("b", "2")] [] in
  exists val w0 w1 w2 w3 w4,
    get_key conn "b" w = (Return val, w0)
    /\ set_key conn "a" "9" w = (Return tt, w1)
    /\ get_key conn "b" w1 = (Return val, w2)
    /\ delete_key conn "a" w = (Return tt, w3)
    /\ get_key conn "b" w3 = (Return val, w4).
Proof.
  apply (writes_leave_other_keys (Handle sample_dsn) "a" "9" "b"
           (stocked_world [("a", "1"); ("b", "2")] [])
           [("a", "1"); ("b", "2")]).
  - split; reflexivity.
  - discriminate.
  - simpl. lia.
  - simpl. lia.
Defined.

(** X5: [set_key] is idempotent on the table: the same write a second
    time leaves the rows as the first write left them. *)
Theorem set_key_twice
  (conn : IBM_DBConnection) (key value : string) (w : World) (rows : list Row) :
  serving w rows ->
  String.length key <= 80 -> String.length value <= 200 ->
  exists w1 w2,
    set_key conn key value w = (Return tt, w1)
    /\ set_key conn key value w1 = (Return tt, w2)
    /\ table w2 = table w1.
Proof.
  intros Hw Hk Hv.
  rewrite (set_key_serving conn key value w rows Hw Hk Hv).
  eexists. eexists. split; [reflexivity|].
  erewrite set_key_serving; try assumption.
  2:{ apply serving_add_stdout. eapply serving_set_table.
      apply serving_after. exact Hw. }
  split; [reflexivity|]. simpl. now rewrite merge_idempotent.
Qed.

Lemma set_key_twice_witness :
  let conn := Handle sample_dsn in
  exists w1 w2,
    set_key conn "a" "1" (stocked_world [("b", "2")] []) = (Return tt, w1)
    /\ set_key conn "a" "1" w1 = (Return tt, w2)
    /\ table w2 = table w1.
Proof.
  apply (set_key_twice (Handle sample_dsn) "a" "1"
           (stocked_world [("b", "2")] []) [("b", "2")]).
  - split; reflexivity.
  - simpl. lia.
  - simpl. lia.
Defined.

(** X6: [set_key] followed by [delete_key] of the same key leaves the
    table as a [delete_key] alone would; when the key was not stored
    before, the table is back to what it was. *)
Theorem set_key_then_delete_key
  (conn : IBM_DBConnection) (key value : string) (w : World) (rows : list Row) :
  serving w rows ->
  String.length key <= 80 -> String.length value <= 200 ->
  exists w1 w2 w3,
    set_key conn key value w = (Return tt, w1)
    /\ delete_key conn key w1 = (Return tt, w2)
    /\ delete_key conn key w = (Return tt, w3)
    /\ table w2 = table w3
    /\ (~ In key (keys rows) -> table w2 = Some rows).
Proof.
  intros Hw Hk Hv.
  rewrite (set_key_serving conn key value w rows Hw Hk Hv).
  rewrite (delete_key_serving conn key w rows Hw).
  eexists. eexists. eexists. split; [reflexivity|].
  erewrite delete_key_serving.
  2:{ apply serving_add_stdout. eapply serving_set_table.
      apply serving_after. exact Hw. }
  split; [reflexivity|]. split; [reflexivity|]. simpl.
  rewrite delete_merge. split; [reflexivity|].
  intros Habs. now rewrite SqlFacts.delete_absent.
Qed.

Lemma set_key_then_delete_key_witness :
  let conn := Handle sample_dsn in
  exists w1 w2,
    set_key conn "a" "1" (stocked_world [("b", "2")] []) = (Return tt, w1)
    /\ delete_key conn "a" w1 = (Return tt, w2)
    /\ table w2 = Some [("b", "2")].
Proof.
  destruct (set_key_then_delete_key (Handle sample_dsn) "a" "1"
              (stocked_world [("b", "2")] []) [("b", "2")])
    as (w1 & w2 & w3 & Hs & Hd & _ & _ & Hback).
  - split; reflexivity.
  - simpl. lia.
  - simpl. lia.
  - exists w1, w2. split; [exact Hs|]. split; [exact Hd|].
    apply Hback. simpl. intros [H|[]]. discriminate.
Defined.

(** X7: when the server makes the statement of a write fail, the
    exception leaves [set_key] or [delete_key], the table is as it was
    and no success line is printed. *)
Theorem failed_write_changes_nothing
  (conn : IBM_DBConnection) (key value : string) (w : World)
  (e : exn) (pending : list (option exn)) :
  faults w = Some e :: pending ->
  String.length key <= 80 -> String.length value <= 200 ->
  exists w1 w2,
    set_key conn key value w = (Raise e, w1)
    /\ table w1 = table w /\ stdout w1 = stdout w /\ faults w1 = pending
    /\ delete_key conn key w = (Raise e, w2)
    /\ table w2 = table w /\ stdout w2 = stdout w /\ faults w2 = pending.
Proof.
  intros Hf Hk Hv. destruct w as [env fl tb sd fs cs out].
  simpl in Hf. subst fs. unfold set_key.
  apply Nat.ltb_ge in Hk, Hv. rewrite Hk, Hv.
  eexists. eexists. cbn. repeat split.
Qed.

Lemma failed_write_changes_nothing_witness :
  let conn := Handle sample_dsn in
  let w := stocked_world [("a", "1")] [Some (Exception sql0911n)] in
  exists w1 w2,
    set_key conn "a" "2" w = (Raise (Exception sql0911n), w1)
    /\ table w1 = table w /\ stdout w1 = stdout w /\ faults w1 = []
    /\ delete_key conn "a" w = (Raise (Exception sql0911n), w2)
    /\ table w2 = table w /\ stdout w2 = stdout w /\ faults w2 = [].
Proof.
  apply (failed_write_changes_nothing (Handle sample_dsn) "a" "2"
           (stocked_world [("a", "1")] [Some (Exception sql0911n)])
           (Exception sql0911n) []).
  - reflexivity.
  - simpl. lia.
  - simpl. lia.
Defined.

(** ** Reads *)

Lemma reads_only_refl (w : World) : reads_only w w.
Proof. now split. Qed.

Lemma reads_only_trans (a b c : World) :
  reads_only a b -> reads_only b c -> reads_only a c.
Proof. unfold reads_only. intros [H1 H2] [H3 H4]. split; congruence. Qed.

Lemma reads_only_call (c : Call) (w : World) :
  c <> Cclose -> reads_only w (add_call c w).
Proof. now split. Qed.

Lemma respects_bind_post {A B} (R : World -> World -> Prop)
  (P : A -> Prop) (m : Py A) (k : A -> Py B) :
  (forall a b c, R a b -> R b c -> R a c) ->
  (forall w a w', m w = (Return a, w') -> P a) ->
  respects R m -> (forall a, P a -> respects R (k a)) ->
  respects R (bind m k).
Proof.
  intros Ht HP Hm Hk w. unfold bind. specialize (Hm w).
  destruct (m w) as [[a|e] w'] eqn:E; simpl in *; [|exact Hm].
  eapply Ht; [exact Hm|]. apply Hk. eapply HP. exact E.
Qed.

Lemma reads_only_execute (stmt : IBM_DBStatement) :
  sql stmt = SELECT_VALUE \/ sql stmt = SELECT_ALL \/ sql stmt = SELECT_LIKE ->
  respects reads_only (execute stmt).
Proof.
  intros Hq w. unfold execute, bind, log_call, round_trip, run.
  destruct Hq as [Hq | [Hq | Hq]]; rewrite Hq; simpl;
    destruct (faults w) as [|[e|] fs]; simpl;
    destruct (table w); simpl; try (now split);
    destruct (param 1 (params stmt)); now split.
Qed.

Lemma reads_only_fetch_all (stmt : IBM_DBStatement) :
  respects reads_only
    ('(row, stmt) <- fetch_assoc stmt;;
     fetch_rows (S (List.length (cursor stmt))) stmt row []).
Proof.
  apply (respects_bind reads_only reads_only_trans).
  - apply (respects_fetch_assoc reads_only reads_only_refl reads_only_trans
             reads_only_call).
  - intros [row stmt'].
    apply (respects_fetch_rows reads_only reads_only_refl reads_only_trans
             reads_only_call).
Qed.

Lemma prepare_sql (conn : IBM_DBConnection) (q : Sql) (w w' : World)
  (stmt : IBM_DBStatement) :
  prepare conn q w = (Return stmt, w') -> sql stmt = q.
Proof. unfold prepare, bind, log_call, ret. now intros [= <- _]. Qed.

Lemma bind_param_sql (stmt stmt' : IBM_DBStatement) (pos : nat) (v : string)
  (w w' : World) :
  bind_param stmt pos v w = (Return stmt', w') -> sql stmt' = sql stmt.
Proof. unfold bind_param, bind, log_call, ret. now intros [= <- _]. Qed.

Lemma execute_sql (stmt stmt' : IBM_DBStatement) (w w' : World) :
  execute stmt w = (Return stmt', w') -> sql stmt' = sql stmt.
Proof.
  unfold execute, bind, log_call, ret.
  destruct (round_trip _) as [[[]|e] w1]; [|discriminate].
  destruct (run _ _ w1) as [[rows|e] w2]; [|discriminate].
  now intros [= <- _].
Qed.

Lemma reads_only_exec_immediate (conn : IBM_DBConnection) :
  respects reads_only (exec_immediate conn SELECT_ALL).
Proof.
  intros w. unfold exec_immediate, bind, log_call, round_trip, run. simpl.
  destruct (faults w) as [|[e|] fs]; simpl; destruct (table w); now split.
Qed.

(** X8: [get_key], [list_all] and [search_keys] never change the table
    and never print, whatever the state of the backend: also when the
    statement fails or the table does not exist. *)
Theorem reads_never_write
  (conn : IBM_DBConnection) (key pattern : string) (w : World) :
  reads_only w (snd (get_key conn key w))
  /\ reads_only w (snd (list_all conn w))
  /\ reads_only w (snd (search_keys conn pattern w)).
Proof.
  pose proof reads_only_refl as Hr.
  pose proof reads_only_trans as Ht.
  pose proof reads_only_call as Hc.
  split; [|split].
  - apply (respects_bind_post reads_only (fun s => sql s = SELECT_VALUE));
      [exact Ht|intros w0 s w'; apply prepare_sql
      |now apply respects_prepare|intros s1 H1].
    apply (respects_bind_post reads_only (fun s => sql s = SELECT_VALUE));
      [exact Ht
      |intros w0 s w' H; rewrite (bind_param_sql _ _ _ _ _ _ H); exact H1
      |now apply respects_bind_param|intros s2 H2].
    apply (respects_bind reads_only Ht);
      [apply reads_only_execute; now left|intros s3].
    apply (respects_bind reads_only Ht);
      [now apply respects_fetch_assoc|intros [row s4]].
    destruct (truthy row); [|now apply respects_ret].
    apply (respects_bind reads_only Ht);
      [now apply respects_getitem|intros v; now apply respects_ret].
  - apply (respects_bind reads_only Ht); [|intros s; apply reads_only_fetch_all].
    apply reads_only_exec_immediate.
  - apply (respects_bind_post reads_only (fun s => sql s = SELECT_LIKE));
      [exact Ht|intros w0 s w'; apply prepare_sql
      |now apply respects_prepare|intros s1 H1].
    apply (respects_bind_post reads_only (fun s => sql s = SELECT_LIKE));
      [exact Ht
      |intros w0 s w' H; rewrite (bind_param_sql _ _ _ _ _ _ H); exact H1
      |now apply respects_bind_param|intros s2 H2].
    apply (respects_bind reads_only Ht);
      [apply reads_only_execute; now (right; right)|intros s3].
    apply reads_only_fetch_all.
Qed.

Lemma failed_reads_example :
  let w := stocked_world [("a", "1")] [Some (Exception sql0911n)] in
  table (snd (search_keys (Handle sample_dsn) "a%" w)) = Some [("a", "1")]
  /\ stdout (snd (list_all (Handle sample_dsn) w)) = [].
Proof. vm_compute. split; reflexivity. Qed.

(** * The command line *)

(** ** Facts about [strip] and [split] *)

Lemma string_append_assoc (a b c : string) : (a ++ b) ++ c = a ++ b ++ c.
Proof. induction a as [|x a IH]; simpl; [reflexivity|now rewrite IH]. Qed.

Lemma lstrip_blank (s : string) : blank s -> lstrip s = "".
Proof.
  induction s as [|c s IH]; intros H; simpl; [reflexivity|].
  rewrite (H c (or_introl eq_refl)). apply IH.
  intros c' Hc'. apply H. now right.
Qed.

Lemma strip_blank (s : string) : blank s -> strip s = "".
Proof. intros H. unfold strip. now rewrite lstrip_blank. Qed.

Lemma solid_tail (c : ascii) (s : string) : solid (String c s) -> solid s.
Proof. intros H c' Hc'. apply H. now right. Qed.

Lemma solid_head (c : ascii) (s : string) :
  solid (String c s) -> isspace c = false.
Proof. intros H. apply H. now left. Qed.

Lemma lstrip_solid (s : string) : solid s -> lstrip s = s.
Proof.
  destruct s as [|c s]; intros H; simpl; [reflexivity|].
  now rewrite (solid_head c s H).
Qed.

Lemma rstrip_solid (s : string) : solid s -> rstrip s = s.
Proof.
  induction s as [|c s IH]; intros H; simpl; [reflexivity|].
  rewrite (IH (solid_tail c s H)).
  destruct s; [|reflexivity]. now rewrite (solid_head c "" H).
Qed.

Lemma rstrip_append (a v : string) :
  v <> "" -> rstrip v = v -> rstrip (a ++ v) = a ++ v.
Proof.
  intros Hne Hv. induction a as [|c a IH]; simpl; [exact Hv|].
  rewrite IH. destruct (a ++ v) eqn:E; [|reflexivity].
  destruct a; simpl in E; [congruence|discriminate].
Qed.

Lemma take_word_solid (k rest : string) :
  solid k -> take_word (k ++ String " " rest) = (k, String " " rest).
Proof.
  induction k as [|c k IH]; intros H; simpl; [reflexivity|].
  rewrite (solid_head c k H), (IH (solid_tail c k H)). reflexivity.
Qed.

Lemma take_word_all (k : string) : solid k -> take_word k = (k, "").
Proof.
  induction k as [|c k IH]; intros H; simpl; [reflexivity|].
  rewrite (solid_head c k H), (IH (solid_tail c k H)). reflexivity.
Qed.

Lemma lstrip_append_solid (k rest : string) :
  k <> "" -> solid k -> lstrip (k ++ rest) = k ++ rest.
Proof.
  destruct k as [|c k]; intros Hne H; [congruence|].
  simpl. now rewrite (solid_head c k H).
Qed.

Lemma split_more (m : nat) (s : string) :
  lstrip s <> "" ->
  split (S m) s
  = fst (take_word (lstrip s)) :: split m (snd (take_word (lstrip s))).
Proof.
  intros H. cbn [split]. destruct (lstrip s) as [|c t]; [congruence|].
  destruct (take_word (String c t)); reflexivity.
Qed.

Lemma split_last (s : string) :
  lstrip s <> "" -> split 0 s = [lstrip s].
Proof.
  intros H. cbn [split]. destruct (lstrip s) as [|c t];
    [congruence|reflexivity].
Qed.

Lemma append_not_empty (a b : string) : a <> "" -> a ++ b <> "".
Proof. destruct a; [congruence|discriminate]. Qed.

(** A command word, a key and a value that may hold blanks make three
    parts. *)
Lemma split_word_key_value (cmd k v : string) :
  cmd <> "" -> solid cmd -> k <> "" -> solid k ->
  v <> "" -> lstrip v = v -> rstrip v = v ->
  split 2 (strip (cmd ++ " " ++ k ++ " " ++ v)) = [cmd; k; v].
Proof.
  intros Hc Hcs Hk Hks Hv Hl Hr.
  unfold strip. rewrite lstrip_append_solid by assumption.
  assert (rstrip (cmd ++ " " ++ k ++ " " ++ v) = cmd ++ " " ++ k ++ " " ++ v)
    as ->.
  { replace (cmd ++ " " ++ k ++ " " ++ v)
      with ((cmd ++ " " ++ k ++ " ") ++ v).
    - now apply rstrip_append.
    - rewrite !string_append_assoc. reflexivity. }
  rewrite split_more;
    rewrite lstrip_append_solid by assumption;
    [|now apply append_not_empty].
  simpl (" " ++ _). rewrite take_word_solid by assumption.
  cbv [fst snd].
  assert (lstrip (String " " (k ++ String " " v)) = k ++ String " " v) as Hk2
      by (simpl; now apply lstrip_append_solid).
  rewrite split_more; rewrite Hk2; [|now apply append_not_empty].
  rewrite take_word_solid by assumption. cbv [fst snd].
  assert (lstrip (String " " v) = v) as Hv2 by (simpl; exact Hl).
  rewrite split_last; rewrite Hv2; [reflexivity|assumption].
Qed.

(** A command word and one argument make two parts. *)
Lemma split_word_key (cmd k : string) :
  cmd <> "" -> solid cmd -> k <> "" -> solid k ->
  split 2 (strip (cmd ++ " " ++ k)) = [cmd; k].
Proof.
  intros Hc Hcs Hk Hks.
  unfold strip. rewrite lstrip_append_solid by assumption.
  assert (rstrip (cmd ++ " " ++ k) = cmd ++ " " ++ k) as ->.
  { replace (cmd ++ " " ++ k) with ((cmd ++ " ") ++ k).
    - apply rstrip_append; [assumption|now apply rstrip_solid].
    - rewrite !string_append_assoc. reflexivity. }
  rewrite split_more;
    rewrite lstrip_append_solid by assumption;
    [|now apply append_not_empty].
  simpl (" " ++ _). rewrite take_word_solid by assumption.
  cbv [fst snd].
  assert (lstrip (String " " k) = k) as Hk2
      by (simpl; now apply lstrip_solid).
  rewrite split_more; rewrite Hk2; [|assumption].
  rewrite take_word_all by assumption. reflexivity.
Qed.

(** A lone command word makes one part. *)
Lemma split_word (cmd : string) :
  cmd <> "" -> solid cmd -> split 2 (strip cmd) = [cmd].
Proof.
  intros Hc Hcs. unfold strip.
  rewrite (lstrip_solid cmd Hcs), (rstrip_solid cmd Hcs).
  rewrite split_more; rewrite (lstrip_solid cmd Hcs); [|assumption].
  rewrite take_word_all by assumption. reflexivity.
Qed.

(** ** One round of the loop *)

Lemma repl_round_parts (conn : IBM_DBConnection) (line : string)
  (parts : list string) (w : World) :
  split 2 (strip line) = parts -> parts <> [] ->
  repl_round conn (Some (Line line)) w = dispatch conn parts (add_stdout prompt w).
Proof.
  intros Hs Hne. rewrite repl_round_line.
  destruct (strip line) as [|c s]; [simpl in Hs; congruence|].
  now rewrite Hs.
Qed.

Lemma repl_loop_next (conn : IBM_DBConnection) (ev : Tty) (rest : list Tty)
  (w w' : World) :
  repl_round conn (Some ev) w = (Return Next, w') ->
  repl_loop conn (ev :: rest) w = repl_loop conn rest w'.
Proof. intros H. simpl. now rewrite (bind_return _ _ _ _ _ H). Qed.

Lemma repl_loop_break (conn : IBM_DBConnection) (ev : Tty) (rest : list Tty)
  (w w' : World) :
  repl_round conn (Some ev) w = (Return Break, w') ->
  repl_loop conn (ev :: rest) w = (Return tt, w').
Proof. intros H. simpl. now rewrite (bind_return _ _ _ _ _ H). Qed.

(** X9: a line of blanks, or an empty line, is skipped: the loop shows
    the prompt again and goes on with the next line, and nothing else
    has changed. *)
Theorem blank_line_is_skipped
  (conn : IBM_DBConnection) (line : string) (rest : list Tty) (w : World) :
  blank line ->
  repl_loop conn (Line line :: rest) w
  = repl_loop conn rest (add_stdout prompt w).
Proof.
  intros H. apply repl_loop_next.
  rewrite repl_round_line, (strip_blank line H). reflexivity.
Qed.

Lemma blank_line_is_skipped_witness :
  let conn := Handle sample_dsn in
  let w := stocked_world [("a", "1")] [] in
  repl_loop conn [Line "   "; Line "get a"] w
  = repl_loop conn [Line "get a"] (add_stdout prompt w).
Proof.
  apply (blank_line_is_skipped (Handle sample_dsn) "   " [Line "get a"]
           (stocked_world [("a", "1")] [])).
  intros c. simpl. intros [<-|[<-|[<-|[]]]]; reflexivity.
Defined.

(** X10: the loop ends, with no exception and no driver call, at the
    end of input, on Ctrl-C at the prompt, and on a line whose first
    word is exit, quit or q in any case; what the operator would have
    typed after that is never read. *)
Theorem repl_loop_ends
  (conn : IBM_DBConnection) (rest : list Tty) (w : World) :
  repl_loop conn [] w = (Return tt, add_stdout prompt w)
  /\ repl_loop conn (CtrlC :: rest) w = (Return tt, add_stdout prompt w)
  /\ (forall line word args,
         split 2 (strip line) = word :: args ->
         lower word = "exit" \/ lower word = "quit" \/ lower word = "q" ->
         repl_loop conn (Line line :: rest) w
         = (Return tt, add_stdout prompt w)).
Proof.
  split; [reflexivity|]. split; [reflexivity|].
  intros line word args Hs Hw. apply repl_loop_break.
  rewrite (repl_round_parts conn line (word :: args) w Hs) by discriminate.
  unfold dispatch. change (nth 0 (word :: args) "") with word. cbv zeta.
  destruct Hw as [Hw | [Hw | Hw]]; rewrite Hw; reflexivity.
Qed.

Lemma repl_loop_ends_witness :
  let conn := Handle sample_dsn in
  let w := stocked_world [] [] in
  repl_loop conn [Line " QUIT now "; Line "set a 1"] w
  = (Return tt, add_stdout prompt w).
Proof.
  apply (proj2 (proj2 (repl_loop_ends (Handle sample_dsn) [Line "set a 1"]
                         (stocked_world [] [])))
           " QUIT now " "QUIT" ["now"]).
  - reflexivity.
  - right. left. reflexivity.
Defined.

(** X11: a set, get, del or find command, in any case, that lacks an
    argument prints its usage line, and a first word that is no command
    prints the unknown-command line with the word in lowercase; in both
    cases the loop goes on and nothing reaches the driver. *)
Theorem malformed_command_prints_only
  (conn : IBM_DBConnection) (line word : string) (args : list string)
  (w : World) :
  split 2 (strip line) = word :: args ->
  (lower word = "set" -> List.length args < 2 ->
   repl_round conn (Some (Line line)) w
   = (Return Next,
      printing [prompt; Printed "[ERROR] Usage: set <key> <value>"] w))
  /\ (lower word = "get" -> args = [] ->
      repl_round conn (Some (Line line)) w
      = (Return Next, printing [prompt; Printed "[ERROR] Usage: get <key>"] w))
  /\ (lower word = "del" -> args = [] ->
      repl_round conn (Some (Line line)) w
      = (Return Next, printing [prompt; Printed "[ERROR] Usage: del <key>"] w))
  /\ (lower word = "find" -> args = [] ->
      repl_round conn (Some (Line line)) w
      = (Return Next,
         printing
           [prompt; Printed "[ERROR] Usage: find <pattern>  e.g.  find app.%"]
           w))
  /\ (~ In (lower word)
        ["exit"; "quit"; "q"; "help"; "set"; "get"; "del"; "list"; "find"] ->
      repl_round conn (Some (Line line)) w
      = (Return Next,
         printing
           [prompt;
            Printed ("[ERROR] Unknown command '" ++ lower word
                     ++ "'. Type 'help'.")] w)).
Proof.
  intros Hs.
  rewrite (repl_round_parts conn line (word :: args) w Hs) by discriminate.
  unfold dispatch. change (nth 0 (word :: args) "") with word. cbv zeta.
  simpl List.length.
  assert (forall o, add_stdout o (add_stdout prompt w) = printing [prompt; o] w)
    as Hout.
  { intros o. unfold add_stdout, printing. simpl.
    now rewrite <- app_assoc. }
  repeat split.
  - intros -> Hlen. simpl.
    destruct args as [|a [|b args]]; simpl in Hlen; try lia;
      cbn; now rewrite <- Hout.
  - intros -> ->. cbn. now rewrite <- Hout.
  - intros -> ->. cbn. now rewrite <- Hout.
  - intros -> ->. cbn. now rewrite <- Hout.
  - intros Hnot.
    assert (forall s,
               In s ["exit"; "quit"; "q"; "help"; "set"; "get"; "del"; "list";
                     "find"] -> (lower word =? s) = false) as Hf.
    { intros s Hin. apply String.eqb_neq. intros E. apply Hnot.
      now rewrite E. }
    rewrite (Hf "exit"), (Hf "quit"), (Hf "q"), (Hf "help"), (Hf "set"),
      (Hf "get"), (Hf "del"), (Hf "list"), (Hf "find") by (simpl; tauto).
    cbn. now rewrite <- Hout.
Qed.

Lemma malformed_command_prints_only_witness :
  let conn := Handle sample_dsn in
  let w := stocked_world [] [] in
  repl_round conn (Some (Line "SET k")) w
  = (Return Next,
     printing [prompt; Printed "[ERROR] Usage: set <key> <value>"] w)
  /\ repl_round conn (Some (Line "Drop metadata")) w
     = (Return Next,
        printing
          [prompt; Printed "[ERROR] Unknown command 'drop'. Type 'help'."] w).
Proof.
  split.
  - apply (proj1 (malformed_command_prints_only (Handle sample_dsn)
                    "SET k" "SET" ["k"] (stocked_world [] []) eq_refl)).
    + reflexivity.
    + simpl. lia.
  - apply (proj2 (proj2 (proj2 (proj2
             (malformed_command_prints_only (Handle sample_dsn)
                "Drop metadata" "Drop" ["metadata"] (stocked_world [] [])
                eq_refl))))).
    simpl. intuition discriminate.
Defined.

(** ** Commands that reach the store *)

(** X12: typed at the prompt, [set <key> <value>] followed by
    [get <key>] shows the value as it was typed, blanks inside it
    included: the key is a word, the value is all that follows it. *)
Theorem repl_set_then_get
  (conn : IBM_DBConnection) (key value : string) (w : World) (rows : list Row) :
  serving w rows ->
  key <> "" -> solid key ->
  value <> "" -> lstrip value = value -> rstrip value = value ->
  String.length key <= 80 -> String.length value <= 200 ->
  exists w',
    repl_loop conn [Line ("set " ++ key ++ " " ++ value);
                    Line ("get " ++ key)] w
    = (Return tt, w')
    /\ stdout w'
       = (stdout w
          ++ [prompt;
              Printed ("[OK] Set  '" ++ key ++ "' = '" ++ value ++ "'");
              prompt;
              Printed ("  " ++ key ++ " = " ++ value);
              prompt])%list.
Proof.
  intros Hw Hk Hks Hv Hl Hr Hlk Hlv.
  assert (solid "set" /\ solid "get") as [Hset Hget].
  { split; intros c; simpl; intros [<-|[<-|[<-|[]]]]; reflexivity. }
  assert (split 2 (strip ("set " ++ key ++ " " ++ value))
          = ["set"; key; value]) as Hs1.
  { apply (split_word_key_value "set" key value); try assumption.
    discriminate. }
  assert (split 2 (strip ("get " ++ key)) = ["get"; key]) as Hs2.
  { apply (split_word_key "get" key); try assumption. discriminate. }
  pose proof (serving_add_stdout prompt w rows Hw) as Hw0.
  erewrite repl_loop_next.
  2:{ rewrite (repl_round_parts conn _ _ w Hs1) by discriminate.
      change (dispatch conn ["set"; key; value] (add_stdout prompt w))
        with ((set_key conn key value;; ret Next) (add_stdout prompt w)).
      erewrite bind_return; [reflexivity|].
      apply (set_key_serving conn key value _ rows Hw0 Hlk Hlv). }
  erewrite repl_loop_next.
  2:{ erewrite repl_round_parts; [|exact Hs2|discriminate].
      match goal with
      | |- dispatch conn ["get"; key] ?w1 = _ =>
          change (dispatch conn ["get"; key] w1)
            with ((val <- get_key conn key;;
                   match val with
                   | None => print ("  (key '" ++ key ++ "' not found)");;
                             ret Next
                   | Some v => print ("  " ++ key ++ " = " ++ v);; ret Next
                   end) w1)
      end.
      erewrite bind_return.
      2:{ eapply get_key_serving.
          apply serving_add_stdout. apply serving_add_stdout.
          eapply serving_set_table. apply serving_after. exact Hw0. }
      rewrite SqlFacts.where_key_merge. reflexivity. }
  eexists. split; [reflexivity|].
  simpl. rewrite <- !app_assoc. reflexivity.
Qed.

Lemma repl_set_then_get_witness :
  exists w',
    repl_loop (Handle sample_dsn)
      [Line ("set " ++ "motd" ++ " " ++ "hello  big world");
       Line ("get " ++ "motd")] (stocked_world [] [])
    = (Return tt, w')
    /\ stdout w'
       = [prompt; Printed "[OK] Set  'motd' = 'hello  big world'";
          prompt; Printed "  motd = hello  big world"; prompt].
Proof.
  apply (repl_set_then_get (Handle sample_dsn) "motd" "hello  big world"
           (stocked_world [] []) []).
  - split; reflexivity.
  - discriminate.
  - intros c. simpl. intros [<-|[<-|[<-|[<-|[]]]]]; reflexivity.
  - discriminate.
  - reflexivity.
  - reflexivity.
  - simpl. lia.
  - simpl. lia.
Defined.

(** ** The table on the screen *)

Lemma length_append (a b : string) :
  String.length (a ++ b) = String.length a + String.length b.
Proof. induction a as [|c a IH]; simpl; [reflexivity|now rewrite IH]. Qed.

Lemma length_repeat_char (c : ascii) (n : nat) :
  String.length (repeat_char c n) = n.
Proof. induction n as [|n IH]; simpl; [reflexivity|now rewrite IH]. Qed.

Lemma length_ljust (s : string) (width : nat) :
  String.length s <= width -> String.length (ljust s width) = width.
Proof.
  intros H. unfold ljust. rewrite length_append, length_repeat_char. lia.
Qed.

Lemma max_of_bound (f : string * string -> nat) (rows : list (string * string))
  (r : string * string) :
  In r rows -> f r <= max_of f rows.
Proof.
  unfold max_of. induction rows as [|r' rows IH]; simpl; [contradiction|].
  intros [->|Hin]; [lia|]. specialize (IH Hin). lia.
Qed.

Lemma for_each_print {A} (l : list A) (f : A -> string) (w : World) :
  for_each l (fun x => print (f x)) w
  = (Return tt, printing (map (fun x => Printed (f x)) l) w).
Proof.
  revert w. induction l as [|x l IH]; intros w; simpl.
  - unfold ret, printing. destruct w. simpl. now rewrite app_nil_r.
  - unfold bind. simpl. rewrite IH. unfold printing, add_stdout. simpl.
    now rewrite <- app_assoc.
Qed.

Lemma bind_print {B} (s : string) (k : Py B) (w : World) :
  (print s;; k) w = k (add_stdout (Printed s) w).
Proof. reflexivity. Qed.

(** What [print_table] prints for a result that is not empty. *)
Lemma print_table_lines (r : string * string) (rest : list (string * string))
  (w : World) :
  let rows := r :: rest in
  let key_w := Nat.max (max_of (fun r => String.length (fst r)) rows) 4 in
  let val_w := Nat.max (max_of (fun r => String.length (snd r)) rows) 5 in
  let sep := "  +" ++ repeat_char "-" (key_w + 2)
             ++ "+" ++ repeat_char "-" (val_w + 2) ++ "+" in
  print_table rows w
  = (Return tt,
     printing
       ([Printed sep;
         Printed ("  | " ++ ljust "KEY" key_w ++ " | "
                  ++ ljust "VALUE" val_w ++ " |");
         Printed sep]
        ++ map (fun r => Printed ("  | " ++ ljust (fst r) key_w ++ " | "
                                  ++ ljust (snd r) val_w ++ " |")) rows
        ++ [Printed sep;
            Printed ("  " ++ str_of_nat (List.length rows) ++ " row(s)" ++ nl)])
       w).
Proof.
  intros rows key_w val_w sep. unfold print_table. subst rows.
  cbv beta match. fold key_w. fold val_w. fold sep.
  rewrite !bind_print.
  erewrite bind_return;
    [|apply (for_each_print (r :: rest)
               (fun r => "  | " ++ ljust (fst r) key_w ++ " | "
                         ++ ljust (snd r) val_w ++ " |"))].
  rewrite bind_print.
  unfold print, printing, add_stdout. simpl.
  rewrite <- !app_assoc. reflexivity.
Qed.

(** X13: for a result with rows, [print_table] prints one line per row
    and four more (the header and three frame lines), then the row
    count; the frame lines, the header and the row lines all have one
    and the same width, 18 characters at least, so the columns line up
    whatever the keys and values are. *)
Theorem print_table_is_aligned
  (rows : list (string * string)) (w : World) :
  rows <> [] ->
  exists lines count width,
    print_table rows w
    = (Return tt, printing (map Printed (lines ++ [count])) w)
    /\ List.length lines = List.length rows + 4
    /\ 18 <= width
    /\ (forall l, In l lines -> String.length l = width)
    /\ count = "  " ++ str_of_nat (List.length rows) ++ " row(s)" ++ nl.
Proof.
  destruct rows as [|r rest]; [congruence|]. intros _.
  pose proof (print_table_lines r rest w) as H. cbv zeta in H.
  set (rows := r :: rest) in *.
  set (key_w := Nat.max (max_of (fun r => String.length (fst r)) rows) 4) in *.
  set (val_w := Nat.max (max_of (fun r => String.length (snd r)) rows) 5) in *.
  set (sep := "  +" ++ repeat_char "-" (key_w + 2)
              ++ "+" ++ repeat_char "-" (val_w + 2) ++ "+") in *.
  pose ("  | " ++ ljust "KEY" key_w ++ " | " ++ ljust "VALUE" val_w ++ " |")
    as header.
  pose (fun r : string * string =>
          "  | " ++ ljust (fst r) key_w ++ " | " ++ ljust (snd r) val_w ++ " |")
    as line.
  exists ([sep; header; sep] ++ map line rows ++ [sep])%list.
  exists ("  " ++ str_of_nat (List.length rows) ++ " row(s)" ++ nl).
  exists (key_w + val_w + 9).
  split.
  { rewrite H. f_equal. f_equal.
    rewrite !map_app, map_map. simpl. rewrite <- !app_assoc. reflexivity. }
  subst header line.
  split.
  { simpl. rewrite length_app, length_map. simpl. lia. }
  split; [unfold key_w, val_w; lia|].
  split; [|reflexivity].
  assert (String.length sep = key_w + val_w + 9) as Hsep.
  { unfold sep. rewrite !length_append, !length_repeat_char. simpl. lia. }
  intros l Hin. apply in_app_or in Hin. destruct Hin as [Hin|Hin].
  - destruct Hin as [<-|[<-|[<-|[]]]]; try exact Hsep.
    assert (String.length "KEY" <= key_w /\ String.length "VALUE" <= val_w)
      as [Hk Hv] by (unfold key_w, val_w; simpl; lia).
    repeat (progress (cbn [String.length append];
                      rewrite ?length_append, ?length_ljust by assumption)).
    lia.
  - apply in_app_or in Hin. destruct Hin as [Hin|[<-|[]]]; [|exact Hsep].
    apply in_map_iff in Hin. destruct Hin as (x & <- & Hx).
    assert (String.length (fst x) <= key_w) as Hk.
    { pose proof (max_of_bound (fun r => String.length (fst r)) rows x Hx).
      unfold key_w. simpl in *. lia. }
    assert (String.length (snd x) <= val_w) as Hv.
    { pose proof (max_of_bound (fun r => String.length (snd r)) rows x Hx).
      unfold val_w. simpl in *. lia. }
    repeat (progress (cbn [String.length append];
                      rewrite ?length_append, ?length_ljust by assumption)).
    lia.
Qed.

Lemma print_table_is_aligned_witness :
  exists lines count width,
    print_table [("a", "1"); ("a-long-key", "v")] (stocked_world [] [])
    = (Return tt,
       printing (map Printed (lines ++ [count])) (stocked_world [] []))
    /\ List.length lines = 2 + 4
    /\ 18 <= width
    /\ (forall l, In l lines -> String.length l = width)
    /\ count = "  " ++ str_of_nat 2 ++ " row(s)" ++ nl.
Proof.
  apply (print_table_is_aligned [("a", "1"); ("a-long-key", "v")]
           (stocked_world [] [])).
  discriminate.
Defined.

(** * Start and end of a session *)

(** ** Configuration *)

Lemma getenv_world (name : string) (w w' : World) (r : outcome (option string)) :
  getenv name w = (r, w') -> w' = w.
Proof. unfold getenv. now intros [= _ <-]. Qed.

(** X14: when [Path(cert).exists()] gives [False] for the path that
    DB2_SSL_CERT names, [main] raises FileNotFoundError with that path,
    and when the variable is not set it raises TypeError; in both cases
    nothing was printed and no connection was attempted. *)
Theorem main_needs_certificate (tty : list Tty) (w : World) :
  (forall path,
      getenv "DB2_SSL_CERT" w = (Return (Some path), w) ->
      path_exists (Some path) w = (Return false, w) ->
      main tty w
      = (Raise (FileNotFoundError ("SSL certificate not found: " ++ path)), w))
  /\ (getenv "DB2_SSL_CERT" w = (Return None, w) ->
      exists msg, main tty w = (Raise (TypeError msg), w)).
Proof.
  split.
  - intros path Hcert Hfile. unfold getenv in Hcert.
    injection Hcert as Hfind.
    unfold main, DatabaseConfig_init, bind, getenv. cbv beta match.
    rewrite Hfind, Hfile. reflexivity.
  - intros Hcert. unfold getenv in Hcert. injection Hcert as Hfind.
    eexists.
    unfold main, DatabaseConfig_init, bind, getenv. cbv beta match.
    rewrite Hfind. reflexivity.
Qed.

Lemma main_needs_certificate_witness :
  let w := mkWorld sample_environ [] None false [] [] [] in
  let w' := mkWorld [("DB2_HOST", "h")] [] None false [] [] [] in
  main [Line "list"] w
  = (Raise (FileNotFoundError
              "SSL certificate not found: /etc/ssl/db2.crt"), w)
  /\ exists msg, main [Line "list"] w' = (Raise (TypeError msg), w').
Proof.
  split.
  - apply (proj1 (main_needs_certificate [Line "list"]
                    (mkWorld sample_environ [] None false [] [] []))
             "/etc/ssl/db2.crt"); reflexivity.
  - apply (proj2 (main_needs_certificate [Line "list"]
                    (mkWorld [("DB2_HOST", "h")] [] None false [] [] []))).
    reflexivity.
Defined.

(** What [DatabaseConfig] builds and prints when the certificate is
    there. *)
Lemma config_ready (w : World) (path : string) :
  getenv "DB2_SSL_CERT" w = (Return (Some path), w) ->
  existsb (String.eqb path) (files w) = true ->
  exists cfg,
    DatabaseConfig_init w = (Return cfg, w)
    /\ ssl_cert cfg = Some path
    /\ forall A (k : DatabaseConfig -> Py A),
        (cfg' <- DatabaseConfig_init;; DatabaseConfig_print cfg';; k cfg') w
        = k cfg
            (printing
               [Printed "Database connection settings:";
                Printed ("  Host: " ++ fmt_opt (host cfg));
                Printed ("  Port: " ++ fmt_opt (port cfg));
                Printed ("  Database: " ++ fmt_opt (database cfg));
                Printed ("  User: " ++ fmt_opt (uid cfg));
                Printed ("  SSL Path: " ++ path)] w).
Proof.
  intros Hcert Hfile. unfold getenv in Hcert. injection Hcert as Hfind.
  assert (exists cfg, DatabaseConfig_init w = (Return cfg, w)
                      /\ ssl_cert cfg = Some path) as (cfg & Hinit & Hssl).
  { eexists. unfold DatabaseConfig_init, bind, getenv. cbv beta match.
    rewrite Hfind. unfold path_exists. rewrite Hfile. simpl.
    split; reflexivity. }
  exists cfg. split; [exact Hinit|]. split; [exact Hssl|].
  intros A k. rewrite (bind_return _ _ _ _ _ Hinit).
  unfold DatabaseConfig_print. rewrite Hssl.
  unfold bind, print, printing, add_stdout. simpl.
  rewrite <- !app_assoc. reflexivity.
Qed.

(** ** Connecting *)

Lemma enter_connect_fails {A} (dsn_config : string)
  (body : IBM_DBConnection -> Py A) (w : World) (e : exn)
  (pending : list (option exn)) :
  faults w = Some e :: pending ->
  with_DB2Connections dsn_config body w
  = (Raise e,
     (if is_Exception e
      then add_stdout (Printed ("[ERROR] Could not connect: " ++ str_exn e))
      else fun w' => w')
       (set_faults pending
          (add_call (Cconnect dsn_config)
             (add_stdout (Printed "[OK] Connecting to DB2") w)))).
Proof.
  intros Hf. destruct w as [env fl tb sd fs cs out]. simpl in Hf. subst fs.
  unfold with_DB2Connections, __enter__, try_except, bind, connect, log_call,
    round_trip, print. simpl.
  destruct (is_Exception e); reflexivity.
Qed.

(** X15: when the certificate is there and [ibm_db.connect] raises,
    [main] ends with that exception after the settings, the connecting
    line and, for an [Exception], the could-not-connect line with its
    text; the one driver call is the connect, nothing is closed, and no
    prompt is shown. *)
Theorem connect_failure_ends_main
  (tty : list Tty) (w : World) (path : string) (e : exn)
  (pending : list (option exn)) :
  getenv "DB2_SSL_CERT" w = (Return (Some path), w) ->
  existsb (String.eqb path) (files w) = true ->
  faults w = Some e :: pending ->
  exists cfg w',
    DatabaseConfig_init w = (Return cfg, w)
    /\ main tty w = (Raise e, w')
    /\ calls w' = (calls w ++ [Cconnect (dsn cfg)])%list
    /\ closes w' = closes w
    /\ table w' = table w
    /\ stdout w'
       = (stdout w
          ++ [Printed "Database connection settings:";
              Printed ("  Host: " ++ fmt_opt (host cfg));
              Printed ("  Port: " ++ fmt_opt (port cfg));
              Printed ("  Database: " ++ fmt_opt (database cfg));
              Printed ("  User: " ++ fmt_opt (uid cfg));
              Printed ("  SSL Path: " ++ path);
              Printed "[OK] Connecting to DB2"]
          ++ (if is_Exception e
              then [Printed ("[ERROR] Could not connect: " ++ str_exn e)]
              else []))%list.
Proof.
  intros Hcert Hfile Hf.
  destruct (config_ready w path Hcert Hfile) as (cfg & Hinit & Hssl & Hk).
  exists cfg. eexists. split; [exact Hinit|].
  unfold main. rewrite Hk.
  rewrite (enter_connect_fails _ _ _ e pending) by exact Hf.
  split; [reflexivity|].
  destruct (is_Exception e); simpl;
    (split; [reflexivity|]);
    (split; [unfold closes; simpl; rewrite filter_app, length_app; simpl; lia|]);
    (split; [reflexivity|]);
    rewrite <- ?app_assoc; simpl; rewrite ?app_nil_r; reflexivity.
Qed.

Lemma connect_failure_ends_main_witness :
  exists w',
    main [Line "list"]
      (sample_world false [Some (Exception "SQL30081N  A communication error")])
    = (Raise (Exception "SQL30081N  A communication error"), w')
    /\ calls w' = [Cconnect sample_dsn]
    /\ closes w' = 0
    /\ last (stdout w') prompt
       = Printed "[ERROR] Could not connect: SQL30081N  A communication error".
Proof.
  destruct (connect_failure_ends_main [Line "list"]
              (sample_world false
                 [Some (Exception "SQL30081N  A communication error")])
              "/etc/ssl/db2.crt"
              (Exception "SQL30081N  A communication error") []
              eq_refl eq_refl eq_refl)
    as (cfg & w' & Hinit & Hmain & Hcalls & Hcloses & _ & Hout).
  exists w'. split; [exact Hmain|].
  vm_compute in Hinit. injection Hinit as <-.
  split; [exact Hcalls|]. split; [exact Hcloses|].
  rewrite Hout. reflexivity.
Defined.

(** ** A session on a backend without faults *)

Lemma serving_printing (outs : list Output) (w : World) (rows : list Row) :
  serving w rows -> serving (printing outs w) rows.
Proof. now unfold serving. Qed.

Lemma print_table_returns (rows : list (string * string)) (w : World) :
  exists outs, print_table rows w = (Return tt, printing outs w).
Proof.
  destruct rows as [|r rest].
  - exists [Printed "  (no records found)"]. reflexivity.
  - eexists. apply (print_table_lines r rest w).
Qed.

Lemma set_key_returns (conn : IBM_DBConnection) (key value : string)
  (w : World) (rows : list Row) :
  serving w rows ->
  exists w' rows', set_key conn key value w = (Return tt, w') /\ serving w' rows'.
Proof.
  intros Hw.
  destruct (Nat.ltb_spec 80 (String.length key)) as [Hk|Hk].
  - unfold set_key. apply Nat.ltb_lt in Hk. rewrite Hk.
    eexists. exists rows. split; [reflexivity|].
    now apply serving_add_stdout.
  - destruct (Nat.ltb_spec 200 (String.length value)) as [Hv|Hv].
    + unfold set_key. apply Nat.ltb_ge in Hk. apply Nat.ltb_lt in Hv.
      rewrite Hk, Hv. eexists. exists rows. split; [reflexivity|].
      now apply serving_add_stdout.
    + rewrite (set_key_serving conn key value w rows Hw Hk Hv).
      eexists. eexists. split; [reflexivity|].
      apply serving_add_stdout. eapply serving_set_table.
      apply serving_after. exact Hw.
Qed.

Lemma dispatch_returns (conn : IBM_DBConnection) (parts : list string)
  (w : World) (rows : list Row) :
  serving w rows ->
  exists flow w' rows',
    dispatch conn parts w = (Return flow, w') /\ serving w' rows'.
Proof.
  intros Hw. unfold dispatch. cbv zeta.
  set (cmd := lower (nth 0 parts "")).
  destruct ((cmd =? "exit") || (cmd =? "quit") || (cmd =? "q")).
  { exists Break, w, rows. now split. }
  destruct (cmd =? "help").
  { eexists. eexists. exists rows. split; [reflexivity|].
    now apply serving_add_stdout. }
  destruct (cmd =? "set").
  { destruct (List.length parts <? 3)%nat.
    - eexists. eexists. exists rows. split; [reflexivity|].
      now apply serving_add_stdout.
    - destruct (set_key_returns conn (nth 1 parts "") (nth 2 parts "") w rows Hw)
        as (w' & rows' & Hset & Hw').
      exists Next, w', rows'. split; [|exact Hw'].
      now rewrite (bind_return _ _ _ _ _ Hset). }
  destruct (cmd =? "get").
  { destruct (List.length parts <? 2)%nat.
    - eexists. eexists. exists rows. split; [reflexivity|].
      now apply serving_add_stdout.
    - rewrite (bind_return _ _ _ _ _
                 (get_key_serving conn (nth 1 parts "") w rows Hw)).
      destruct (option_map snd (hd_error (Db2.where_key (nth 1 parts "") rows)));
        eexists; eexists; exists rows; (split; [reflexivity|]);
        apply serving_add_stdout; now apply serving_after. }
  destruct (cmd =? "del").
  { destruct (List.length parts <? 2)%nat.
    - eexists. eexists. exists rows. split; [reflexivity|].
      now apply serving_add_stdout.
    - rewrite (bind_return _ _ _ _ _
                 (delete_key_serving conn (nth 1 parts "") w rows Hw)).
      eexists. eexists. eexists. split; [reflexivity|].
      apply serving_add_stdout. eapply serving_set_table.
      apply serving_after. exact Hw. }
  destruct (cmd =? "list").
  { rewrite (bind_return _ _ _ _ _ (list_all_serving conn w rows Hw)).
    match goal with
    | |- context [print_table ?t] =>
        destruct (print_table_returns t
                    (after (Cexec_immediate SELECT_ALL
                              :: repeat Cfetch_assoc
                                   (S (List.length (Db2.order_by_key rows)))) w))
          as [outs Hp]
    end.
    rewrite (bind_return _ _ _ _ _ Hp).
    eexists. eexists. exists rows. split; [reflexivity|].
    apply serving_printing. now apply serving_after. }
  destruct (cmd =? "find").
  { destruct (List.length parts <? 2)%nat.
    - eexists. eexists. exists rows. split; [reflexivity|].
      now apply serving_add_stdout.
    - rewrite (bind_return _ _ _ _ _
                 (search_keys_serving conn (nth 1 parts "") w rows Hw)).
      match goal with
      | |- context [bind (print_table ?t) _ ?w1] =>
          destruct (print_table_returns t w1) as [outs Hp]
      end.
      rewrite (bind_return _ _ _ _ _ Hp).
      eexists. eexists. exists rows. split; [reflexivity|].
      apply serving_printing. now apply serving_after. }
  eexists. eexists. exists rows. split; [reflexivity|].
  now apply serving_add_stdout.
Qed.

Lemma repl_round_returns (conn : IBM_DBConnection) (ev : option Tty)
  (w : World) (rows : list Row) :
  serving w rows ->
  exists flow w' rows',
    repl_round conn ev w = (Return flow, w') /\ serving w' rows'.
Proof.
  intros Hw. destruct ev as [[line|]|].
  - rewrite repl_round_line.
    destruct (strip line =? "").
    + exists Next. eexists. exists rows. split; [reflexivity|].
      now apply serving_add_stdout.
    + apply (dispatch_returns conn _ _ rows). now apply serving_add_stdout.
  - exists Break. eexists. exists rows. split; [reflexivity|].
    now apply (serving_add_stdout prompt).
  - exists Break. eexists. exists rows. split; [reflexivity|].
    now apply (serving_add_stdout prompt).
Qed.

Lemma repl_loop_returns (conn : IBM_DBConnection) (tty : list Tty) :
  forall (rows : list Row) (w : World),
    serving w rows ->
    exists w' rows', repl_loop conn tty w = (Return tt, w') /\ serving w' rows'.
Proof.
  induction tty as [|ev rest IH]; intros rows w Hw.
  - destruct (repl_round_returns conn None w rows Hw)
      as (flow & w' & rows' & Hr & Hw').
    exists w', rows'. split; [|exact Hw'].
    simpl. now rewrite (bind_return _ _ _ _ _ Hr).
  - destruct (repl_round_returns conn (Some ev) w rows Hw)
      as (flow & w' & rows' & Hr & Hw').
    destruct flow.
    + exists w', rows'. split; [|exact Hw'].
      now apply repl_loop_break.
    + rewrite (repl_loop_next conn ev rest w w' Hr). now apply (IH rows').
Qed.

(** X16: on a backend that has the table and reports no fault, and for
    an operator whose keys and patterns fit the key column (80
    characters at most), the command loop returns without an exception
    whatever is typed, with the backend still serving and one record
    per key if it was so before. *)
Theorem repl_never_fails_on_serving_backend
  (conn : IBM_DBConnection) (tty : list Tty) (w : World) (rows : list Row) :
  Forall within_widths tty ->
  serving w rows ->
  exists w' rows',
    repl conn tty w = (Return tt, w')
    /\ serving w' rows'
    /\ (NoDup (keys rows) -> NoDup (keys rows')).
Proof.
  intros _ Hw.
  destruct (repl_loop_returns conn tty rows
              (add_stdout
                 (Printed ("Db2 Metadata Manager  |  type 'help' for commands"
                           ++ nl)) w))
    as (w' & rows' & Hloop & Hw'); [now apply serving_add_stdout|].
  assert (repl conn tty w = (Return tt, w')) as Hrepl by exact Hloop.
  exists w', rows'. split; [exact Hrepl|]. split; [exact Hw'|].
  pose proof (respects_unique_keys_of (repl conn tty)
                (fun R r t o c f cr mg dl =>
                   respects_repl R r t o c f cr mg dl conn tty) w) as Hu.
  rewrite Hrepl in Hu. unfold keeps_unique_keys, unique_keys, snd in Hu.
  destruct Hw as [Ht _], Hw' as [Ht' _].
  now rewrite Ht, Ht' in Hu.
Qed.

Lemma repl_never_fails_on_serving_backend_witness :
  exists w' rows',
    repl (Handle sample_dsn)
      [Line "find %"; Line "get"; Line "del nothing"; Line "?"; CtrlC]
      (stocked_world [("a", "1")] [])
    = (Return tt, w') /\ serving w' rows'.
Proof.
  destruct (repl_never_fails_on_serving_backend (Handle sample_dsn)
              [Line "find %"; Line "get"; Line "del nothing"; Line "?"; CtrlC]
              (stocked_world [("a", "1")] []) [("a", "1")])
    as (w' & rows' & Hr & Hw & _).
  - repeat constructor; simpl; lia.
  - split; reflexivity.
  - exists w', rows'. split; [exact Hr|exact Hw].
Defined.

Lemma enter_returns (dsn_config : string) (w : World) :
  faults w = [] ->
  exists w' rows,
    __enter__ dsn_config w
    = (Return (Handle dsn_config,
               mkDB2Connections dsn_config (Handle dsn_config)), w')
    /\ serving w' rows
    /\ closes w' = closes w.
Proof.
  intros Hf. destruct w as [env fl tb sd fs cs out]. simpl in Hf. subst fs.
  destruct tb as [rows|]; [destruct sd|];
    eexists; eexists; (split; [vm_compute; reflexivity|]);
    (split; [split; reflexivity|]);
    unfold closes; cbn [calls]; rewrite !filter_app, !length_app;
    simpl; lia.
Qed.

Lemma closes_printing (outs : list Output) (w : World) :
  closes (printing outs w) = closes w.
Proof. reflexivity. Qed.

(** X17: with the certificate on disk, a backend that reports no fault
    and an operator whose keys and patterns fit the key column (80
    characters at most), [main] returns without an exception whatever
    is typed, the table exists afterwards, and the connection was
    closed exactly once. *)
Theorem main_on_healthy_backend (tty : list Tty) (w : World) (path : string) :
  Forall within_widths tty ->
  getenv "DB2_SSL_CERT" w = (Return (Some path), w) ->
  existsb (String.eqb path) (files w) = true ->
  faults w = [] ->
  exists w' rows,
    main tty w = (Return tt, w')
    /\ table w' = Some rows
    /\ closes w' = S (closes w).
Proof.
  intros _ Hcert Hfile Hf.
  destruct (config_ready w path Hcert Hfile) as (cfg & _ & _ & Hk).
  unfold main. rewrite Hk.
  match goal with
  | |- context [with_DB2Connections ?d ?b ?w0] =>
      destruct (enter_returns d w0 Hf) as (w1 & rows & Henter & Hw1 & Hc1)
  end.
  unfold with_DB2Connections. rewrite (bind_return _ _ _ _ _ Henter).
  cbv beta iota. unfold with_body.
  destruct (repl_loop_returns (Handle (get_dns cfg)) tty rows
              (add_stdout
                 (Printed ("Db2 Metadata Manager  |  type 'help' for commands"
                           ++ nl)) w1))
    as (w2 & rows2 & Hloop & Hw2); [now apply serving_add_stdout|].
  assert (repl (Handle (get_dns cfg)) tty w1 = (Return tt, w2)) as Hrepl
      by exact Hloop.
  assert (closes (snd (repl (Handle (get_dns cfg)) tty w1)) = closes w1) as Hc2.
  { apply (respects_closes_of (repl (Handle (get_dns cfg)) tty)).
    intros R r t o c f cr mg dl. now apply respects_repl. }
  rewrite Hrepl in Hc2 |- *. unfold snd in Hc2.
  eexists. exists rows2. split; [reflexivity|].
  split; [exact (proj1 Hw2)|].
  rewrite closes_printing in Hc1.
  unfold closes in *. cbn [calls snd bind __exit__ close log_call add_call
                             print add_stdout ret].
  rewrite filter_app, length_app. simpl. lia.
Qed.

Lemma main_on_healthy_backend_witness :
  exists w' rows,
    main [Line "set a 1"; Line "bogus"; Line "list"] (sample_world true [])
    = (Return tt, w')
    /\ table w' = Some rows
    /\ closes w' = 1.
Proof.
  apply (main_on_healthy_backend [Line "set a 1"; Line "bogus"; Line "list"]
           (sample_world true []) "/etc/ssl/db2.crt");
    try reflexivity.
  repeat constructor; simpl; lia.
Defined.

Lemma session_closes_once_witness :
  closes
    (snd (with_DB2Connections sample_dsn
            (fun c => repl c [Line "get a"; Line "list"])
            (sample_world false [None; None; Some KeyboardInterrupt])))
  = S (closes (sample_world false [None; None; Some KeyboardInterrupt])).
Proof.
  apply (session_closes_once sample_dsn [Line "get a"; Line "list"]
           (sample_world false [None; None; Some KeyboardInterrupt])
           (mkWorld sample_environ ["/etc/ssl/db2.crt"] (Some []) false
              [Some KeyboardInterrupt]
              [Cconnect sample_dsn; Cexec_immediate CREATE_TABLE]
              [Printed "[OK] Connecting to DB2";
               Printed ("[OK] Connected to Db2." ++ nl);
               Printed ("[OK] Table 'metadata' is ready." ++ nl)])
           (Handle sample_dsn)
           (mkDB2Connections sample_dsn (Handle sample_dsn))).
  vm_compute. reflexivity.
Defined.

(** ** The password *)

(** X19: the settings that [DatabaseConfig] prints do not depend on the
    password: with DB2_PWD set to any value, building the configuration
    and printing it gives the same outcome and the same output. *)
Theorem password_is_not_printed (pwd : string) (w : World) :
  let show := cfg <- DatabaseConfig_init;; DatabaseConfig_print cfg in
  fst (show (with_password pwd w)) = fst (show w)
  /\ stdout (snd (show (with_password pwd w))) = stdout (snd (show w)).
Proof.
  unfold DatabaseConfig_init, DatabaseConfig_print, bind, getenv, path_exists,
    with_password, print, add_stdout, raise, ret.
  cbn.
  destruct (option_map snd
              (find (fun b : string * string => fst b =? "DB2_SSL_CERT")
                 (environ w))) as [path|]; cbn; [|split; reflexivity].
  destruct (existsb (String.eqb path) (files w)); cbn; split; reflexivity.
Qed.

Example password_is_in_the_dsn_only :
  let w := with_password "hunter2" (sample_world false []) in
  exists cfg w',
    DatabaseConfig_init w = (Return cfg, w')
    /\ str_in "PWD=hunter2;" (get_dns cfg) = true
    /\ forallb (fun o => match o with
                         | Printed s | Prompted s => negb (str_in "hunter2" s)
                         end)
         (stdout (snd (main [Line "list"] w))) = true.
Proof. eexists. eexists. vm_compute. repeat split. Qed.

(** ** Wildcards *)

Lemma like_itself (k : string) : Db2.like k k = true.
Proof.
  induction k as [|c k IH]; [reflexivity|].
  destruct (Ascii.eqb_spec c "%") as [->|Hc].
  - apply (SqlFacts.like_percent_skip k "%" k IH).
  - rewrite SqlFacts.like_other by assumption.
    now rewrite Ascii.eqb_refl, orb_true_r, IH.
Qed.

(** X20: a search for the pattern [%] returns what [list_all] returns,
    and a search for a pattern equal to a stored key finds the row of
    that key, wildcard characters in the key or not. *)
Theorem search_keys_wildcards
  (conn : IBM_DBConnection) (w : World) (rows : list Row) :
  serving w rows ->
  (exists all w1 w2,
      list_all conn w = (Return all, w1)
      /\ search_keys conn "%" w = (Return all, w2))
  /\ (forall key value,
         In (key, value) rows ->
         exists found w',
           search_keys conn key w = (Return found, w')
           /\ In (key, value) found).
Proof.
  intros Hw. split.
  - rewrite (list_all_serving conn w rows Hw).
    rewrite (search_keys_serving conn "%" w rows Hw).
    assert (forall l : list Row, Db2.where_like "%" l = l) as Hall.
    { unfold Db2.where_like. induction l as [|r rest IH]; [reflexivity|].
      cbn [filter]. rewrite SqlFacts.like_percent_anything.
      cbv iota. now rewrite IH. }
    rewrite Hall.
    eexists. eexists. eexists. split; reflexivity.
  - intros key value Hin.
    rewrite (search_keys_serving conn key w rows Hw).
    eexists. eexists. split; [reflexivity|].
    apply Db2Facts.order_by_key_In. apply filter_In.
    split; [exact Hin|]. apply like_itself.
Qed.

Lemma search_keys_wildcards_witness :
  let conn := Handle sample_dsn in
  let w := stocked_world [("a_c", "1"); ("abc", "2")] [] in
  (exists all w1 w2,
      list_all conn w = (Return all, w1)
      /\ search_keys conn "%" w = (Return all, w2))
  /\ exists found w',
      search_keys conn "a_c" w = (Return found, w')
      /\ In ("a_c", "1") found.
Proof.
  destruct (search_keys_wildcards (Handle sample_dsn)
              (stocked_world [("a_c", "1"); ("abc", "2")] [])
              [("a_c", "1"); ("abc", "2")] (conj eq_refl eq_refl))
    as [Hall Hfind].
  split; [exact Hall|].
  apply (Hfind "a_c" "1"). simpl. auto.
Defined.
